(** * CodeInput: the interaction controller of the confirmation-code widget

    A shallow embedding of [src/components/CodeInput.tsx].  The component
    keeps a React state [{ codeArr; currentIndex }] and reacts to three host
    events (focus gained, text changed, key pressed).  Each handler closes
    over the state of the render it was created in, queues functional
    [setState] updaters and talks to the outside through two callbacks and
    through imperative [focus()] / [blur()] requests on the cell handles.

    Modelling choices:
    - strings are [string]; only emptiness, equality, concatenation and
      [toLowerCase] are used by the code, and [toLowerCase] is a parameter;
    - array indices and [codeLength] are [nat]; the test
      [index === codeLength - 1] is done in [Z] so that [codeLength = 0]
      does not collapse to [index = 0];
    - an array hole or [undefined] entry is the same as [""] for everything
      the code does with an entry ([!c], [join], the rendered value), so
      [codeArr] is a [list string] without holes;
    - a handler is a computation over the store: [setState f] applies [f] to
      the store (React applies queued updaters in the order they were
      queued), while reads of [state.x] go to the render-time state that is
      passed to the handler as an argument. *)

From Stdlib Require Import Ascii ZArith Lia.
From stdpp Require Import base list strings gmap.

(** ** Configuration *)

(** [Partial<CodeInputProps>]: everything may be left [undefined].  The two
    callbacks are only tested with [typeof f === "function"], so a flag says
    whether the caller supplied one. *)
Record CodeInputProps := {
  prop_codeLength : option nat;
  prop_compareWithCode : option string;
  prop_inputPosition : option string;
  prop_ignoreCase : option bool;
  prop_onFulfill : bool;
  prop_onCodeChange : bool;
}.

(** [type IState = { codeArr: string[]; currentIndex: number }] *)
Record IState := {
  codeArr : list string;
  currentIndex : nat;
}.

(** What a handler does to the outside world, in call order. *)
Inductive effect :=
| OnFulfill (code : string) (isMatching : option bool)
| OnCodeChange (code : string)
| FocusRequest (index : nat)
| BlurRequest (index : nat)
| ConsoleError (message : string).

(** ** JavaScript helpers *)

(** Truthiness of a string: every string but [""]. *)
Definition truthy (s : string) : bool := bool_decide (s ≠ "").

(** [arr.join("")] *)
Definition join (arr : list string) : string := String.concat "" arr.

(** [arr[index] = character]: inside the array a plain update; past its end
    JavaScript grows the array, the skipped slots reading as empty. *)
Definition array_set (arr : list string) (index : nat) (character : string)
  : list string :=
  if bool_decide (index < length arr) then <[index := character]> arr
  else arr ++ replicate (index - length arr) "" ++ [character].

(** [_.findIndex(arr, (c) => !c)], with [None] for [-1]. *)
Definition findIndex (arr : list string) : option nat :=
  fst <$> list_find (λ c, c = "") arr.

(** [for (const i in arr) { if (+i >= index) arr[i] = ""; }] *)
Definition clearFrom (index : nat) (arr : list string) : list string :=
  imap (λ i c, if bool_decide (index ≤ i) then "" else c) arr.

(** [new Array(n).fill("")] *)
Definition emptyCells (n : nat) : list string := replicate n "".

(** ** Handlers as store computations *)

Definition Handler (A : Type) : Type := IState → A * IState * list effect.

Definition ret {A} (a : A) : Handler A := λ st, (a, st, []).

Definition bind {A B} (m : Handler A) (k : A → Handler B) : Handler B :=
  λ st, let '(a, st1, e1) := m st in
        let '(b, st2, e2) := k a st1 in
        (b, st2, e1 ++ e2).

Definition setState (f : IState → IState) : Handler unit :=
  λ st, (tt, f st, []).

Definition call (e : effect) : Handler unit := λ st, (tt, st, [e]).

Definition when (b : bool) (m : Handler unit) : Handler unit :=
  if b then m else ret tt.

Declare Scope handler_scope.
Delimit Scope handler_scope with handler.
Notation "m1 ;; m2" := (bind m1 (λ _, m2))
  (at level 100, m2 at level 200, right associativity) : handler_scope.

(** What the component reacts to: the three host events wired up in
    [renderContent], and [clear()], which only the component itself calls. *)
Inductive event :=
| Focused (index : nat)
| ChangeText (text : string) (index : nat)
| KeyPress (key : string)
| Clear.

Section Controller.

(** [String.prototype.toLowerCase], supplied by the JavaScript engine. *)
Variable toLowerCase : string → string.
Variable props : CodeInputProps.

(** The destructuring defaults of the component's parameter list. *)
Definition codeLength : nat := default 5 (prop_codeLength props).
Definition compareWithCode : string := default "" (prop_compareWithCode props).
Definition inputPosition : string := default "center" (prop_inputPosition props).
Definition ignoreCase : option bool := prop_ignoreCase props.

(** The initial value given to [React.useState]. *)
Definition initialState : IState :=
  {| codeArr := emptyCells codeLength; currentIndex := 0 |}.

(** The [useEffect] that checks the props ([String.length] stands for the
    [length] of the JavaScript string). *)
Definition checkProps : list effect :=
  (if truthy compareWithCode
      && negb (bool_decide (String.length compareWithCode = codeLength))
   then [ConsoleError "Invalid props: compareWith length is not equal to codeLength"]
   else [])
  ++
  (if bool_decide (inputPosition ∈ ["center"; "left"; "right"; "full-width"])
   then []
   else [ConsoleError "Invalid input position. Must be in: center, left, right, full"]).

(** [codeInputRefs.current?.[index]?.focus()]: the render stores one handle
    per cell [0 .. codeLength - 1]; for any other index the optional chain
    stops and nothing is requested. *)
Definition _setFocus (index : nat) : Handler unit :=
  when (bool_decide (index < codeLength)) (call (FocusRequest index)).

Definition _blur (index : nat) : Handler unit :=
  when (bool_decide (index < codeLength)) (call (BlurRequest index)).

Definition clear : Handler unit :=
  (setState (λ s, {| codeArr := emptyCells codeLength; currentIndex := 0 |}) ;;
   _setFocus 0)%handler.

Definition _onFocus (state : IState) (index : nat) : Handler unit :=
  let newCodeArr := codeArr state in
  let currentEmptyIndex := findIndex newCodeArr in
  match currentEmptyIndex with
  | Some e =>
      if bool_decide (e < index) then _setFocus e
      else setState (λ s, {| codeArr := clearFrom index newCodeArr;
                             currentIndex := index |})
  | None =>
      setState (λ s, {| codeArr := clearFrom index newCodeArr;
                        currentIndex := index |})
  end.

Definition _isMatchingCode (code : string) (compareCode : option string)
    (isIgnoreCase : option bool) : bool :=
  let compareCode := default "" compareCode in
  let isIgnoreCase := default false isIgnoreCase in
  if isIgnoreCase
  then bool_decide (toLowerCase code = toLowerCase compareCode)
  else bool_decide (code = compareCode).

Definition _onKeyPress (state : IState) (key : string) : Handler unit :=
  if bool_decide (key = "Backspace") then
    let currentIndex := currentIndex state in
    let nextIndex := if bool_decide (0 < currentIndex)
                     then currentIndex - 1 else 0 in
    let newCodeArr := clearFrom nextIndex (codeArr state) in
    (when (prop_onCodeChange props) (call (OnCodeChange (join newCodeArr))) ;;
     _setFocus nextIndex)%handler
  else ret tt.

Definition _onInputCode (state : IState) (character : string) (index : nat)
  : Handler unit :=
  let newCodeArr := array_set (codeArr state) index character in
  ((if bool_decide (Z.of_nat index = Z.of_nat codeLength - 1)%Z then
      let code := join newCodeArr in
      (if truthy compareWithCode then
         let isMatching :=
           _isMatchingCode code
             (Some (if truthy compareWithCode then compareWithCode else ""))
             ignoreCase in
         when (prop_onFulfill props) (call (OnFulfill code (Some isMatching))) ;;
         when (negb isMatching) clear
       else
         when (prop_onFulfill props) (call (OnFulfill code None))) ;;
      _blur (currentIndex state)
    else
      _setFocus (currentIndex state + 1)) ;;
   setState (λ prevState, {| codeArr := newCodeArr;
                             currentIndex := currentIndex prevState + 1 |}) ;;
   when (prop_onCodeChange props) (call (OnCodeChange (join newCodeArr))))%handler.

(** The handler a host event is wired to in [renderContent]. *)
Definition dispatch (state : IState) (ev : event) : Handler unit :=
  match ev with
  | Focused index => _onFocus state index
  | ChangeText text index => _onInputCode state text index
  | KeyPress key => _onKeyPress state key
  | Clear => clear
  end.

(** One event: the handler of the current render runs against the store,
    which holds the state that render was made from. *)
Definition handle (state : IState) (ev : event) : IState * list effect :=
  let '(_, st, effs) := dispatch state ev state in (st, effs).

(** A sequence of events, one render between two of them. *)
Fixpoint run (state : IState) (evs : list event) : IState * list effect :=
  match evs with
  | [] => (state, [])
  | ev :: evs =>
      let '(st, e1) := handle state ev in
      let '(st', e2) := run st evs in
      (st', e1 ++ e2)
  end.

End Controller.

(** [toLowerCase] on ASCII text, to run the controller on concrete inputs. *)
Definition lowerAscii (c : ascii) : ascii :=
  let n := nat_of_ascii c in
  if (65 <=? n) && (n <=? 90) then ascii_of_nat (n + 32) else c.

Fixpoint asciiToLowerCase (s : string) : string :=
  match s with
  | EmptyString => EmptyString
  | String c s' => String (lowerAscii c) (asciiToLowerCase s')
  end.

(** The host events of typing [chars] into the cells [start], [start + 1], ... *)
Fixpoint typing (start : nat) (chars : list string) : list event :=
  match chars with
  | [] => []
  | c :: chars => ChangeText c start :: typing (S start) chars
  end.

(** Props with only the code length, the comparison target and the case flag
    set, both callbacks supplied. *)
Definition mkProps (len : nat) (target : option string) (ic : option bool)
  : CodeInputProps :=
  {| prop_codeLength := Some len;
     prop_compareWithCode := target;
     prop_inputPosition := None;
     prop_ignoreCase := ic;
     prop_onFulfill := true;
     prop_onCodeChange := true |}.

(** The callbacks made, read off an effect trace. *)
Definition onFulfillCalls (effs : list effect) : list (string * option bool) :=
  omap (λ e, match e with OnFulfill c m => Some (c, m) | _ => None end) effs.

Definition onCodeChangeCalls (effs : list effect) : list string :=
  omap (λ e, match e with OnCodeChange c => Some c | _ => None end) effs.

(** The callbacks alone, in call order. *)
Definition isCallback (e : effect) : bool :=
  match e with
  | OnFulfill _ _ | OnCodeChange _ => true
  | _ => false
  end.

Definition callbackTrace (effs : list effect) : list effect :=
  filter (λ e, Is_true (isCallback e)) effs.

(** The "filled prefix, empty suffix" partition of the data model. *)
Definition partition (len : nat) (s : IState) : Prop :=
  length (codeArr s) = len ∧
  currentIndex s < len ∧
  (∀ i c, i < currentIndex s → codeArr s !! i = Some c → c ≠ "") ∧
  (∀ i c, currentIndex s ≤ i → codeArr s !! i = Some c → c = "").

(** The completed state: every cell holds a character and the cursor sits
    past the last cell. *)
Definition completed (len : nat) (s : IState) : Prop :=
  length (codeArr s) = len ∧
  currentIndex s = len ∧
  (∀ i c, codeArr s !! i = Some c → c ≠ "").

(** [max(i - 1, 0)] over the integers, the cell a backspace moves to. *)
Definition clampedPrev (i : nat) : nat :=
  Z.to_nat (Z.max (Z.of_nat i - 1) 0).

(** The same props with the comparison target left out. *)
Definition withoutTarget (props : CodeInputProps) : CodeInputProps :=
  {| prop_codeLength := prop_codeLength props;
     prop_compareWithCode := None;
     prop_inputPosition := prop_inputPosition props;
     prop_ignoreCase := prop_ignoreCase props;
     prop_onFulfill := prop_onFulfill props;
     prop_onCodeChange := prop_onCodeChange props |}.

(** An event handled with the comparison target left out. *)
Definition handleWithoutTarget (toLowerCase : string → string)
    (props : CodeInputProps) (s : IState) (ev : event) : IState * list effect :=
  handle toLowerCase (withoutTarget props) s ev.

(** The effects of typing 1, 2, 3, 4 into four cells, no target configured. *)
Definition effectsOfTyping1234 (toLowerCase : string → string) : list effect :=
  snd (run toLowerCase (mkProps 4 None None)
         (initialState (mkProps 4 None None))
         (typing 0 ["1"; "2"; "3"; "4"])).

(** ** Presentation *)

(** A value in a style object: a number or a string (a colour). *)
Inductive styleValue (number : Type) :=
| StyleNum (n : number)
| StyleStr (s : string).

Arguments StyleNum {number} n.
Arguments StyleStr {number} s.

(** [CodeInputProps["className"]]: border-box, border-circle, border-b,
    border-b-t, border-l-r, clear. *)
Inductive ClassName :=
| BorderBox | BorderCircle | BorderB | BorderBT | BorderLR | ClearBorder.

(** The props the styles and the cells are computed from, each optional. *)
Record StyleProps (number : Type) := {
  prop_space : option number;
  prop_className : option ClassName;
  prop_cellBorderWidth : option number;
  prop_activeColor : option string;
  prop_inactiveColor : option string;
  prop_autoFocus : option bool;
}.

Arguments prop_space {number} _.
Arguments prop_className {number} _.
Arguments prop_cellBorderWidth {number} _.
Arguments prop_activeColor {number} _.
Arguments prop_inactiveColor {number} _.
Arguments prop_autoFocus {number} _.

(** What [renderContent] gives one cell: its index in [codeInputs], the
    [active] flag its class style is computed with, the class style, and
    the [autoFocus] and [value] props of its text input.  The other entries
    of the style arrays and the constant props are passed through as they
    are. *)
Record CellView (number : Type) := {
  view_index : nat;
  view_active : bool;
  view_classStyle : gmap string (styleValue number);
  view_autoFocus : bool;
  view_value : string;
}.

Arguments view_index {number} _.
Arguments view_active {number} _.
Arguments view_classStyle {number} _.
Arguments view_autoFocus {number} _.
Arguments view_value {number} _.

(** Presentation props with nothing set. *)
Definition noStyleProps (number : Type) : StyleProps number :=
  {| prop_space := None;
     prop_className := None;
     prop_cellBorderWidth := None;
     prop_activeColor := None;
     prop_inactiveColor := None;
     prop_autoFocus := None |}.

Section Presentation.

(** JavaScript numbers are kept abstract: [lit] reads a literal, [half] is
    division by two. *)
Variable number : Type.
Variable lit : Z → number.
Variable half : number → number.
Variable props : CodeInputProps.
Variable sprops : StyleProps number.

Local Abbreviation style := (gmap string (styleValue number)).

(** The destructuring defaults of the presentation props. *)
Definition space : number := default (lit 8) (prop_space sprops).
Definition className : ClassName := default BorderBox (prop_className sprops).
Definition cellBorderWidth : number :=
  default (lit 1) (prop_cellBorderWidth sprops).
Definition activeColor : string := default "#919191" (prop_activeColor sprops).
Definition inactiveColor : string :=
  default "#E2E2E2" (prop_inactiveColor sprops).
Definition autoFocus : bool := default true (prop_autoFocus sprops).

(** [INPUT_SPACE_DEFAULT[position]], [None] for [undefined]. *)
Definition INPUT_SPACE_DEFAULT (position : string) : option style :=
  if decide (position = "left") then
    Some {[ "marginRight" := StyleNum space ]}
  else if decide (position = "center") then
    Some (<["marginLeft" := StyleNum (half space)]>
            {[ "marginRight" := StyleNum (half space) ]})
  else if decide (position = "right") then
    Some {[ "marginLeft" := StyleNum space ]}
  else if decide (position = "full-width") then
    Some (<["marginLeft" := StyleNum (lit 0)]>
            {[ "marginRight" := StyleNum (lit 0) ]})
  else None.

(** [{ ...INPUT_SPACE_DEFAULT[inputPosition], color: activeColor }]:
    spreading [undefined] adds nothing. *)
Definition classStyle : style :=
  <["color" := StyleStr activeColor]>
    (default ∅ (INPUT_SPACE_DEFAULT (inputPosition props))).

(** The [border] table of [_getClassStyle], one entry per class name. *)
Definition border (active : bool) (type : ClassName) : style :=
  let borderColor := StyleStr (if active then activeColor else inactiveColor) in
  match type with
  | ClearBorder =>
      <["borderWidth" := StyleNum (lit 0)]> classStyle
  | BorderBox =>
      <["borderRadius" := StyleNum (lit 4)]>
        (<["borderColor" := borderColor]>
           (<["borderWidth" := StyleNum cellBorderWidth]> classStyle))
  | BorderCircle =>
      <["borderColor" := borderColor]>
        (<["borderRadius" := StyleNum (lit 50)]>
           (<["borderWidth" := StyleNum cellBorderWidth]> classStyle))
  | BorderB =>
      <["borderRadius" := StyleNum (lit 4)]>
        (<["borderColor" := borderColor]>
           (<["borderBottomWidth" := StyleNum cellBorderWidth]> classStyle))
  | BorderBT =>
      <["borderRadius" := StyleNum (lit 4)]>
        (<["borderColor" := borderColor]>
           (<["borderBottomWidth" := StyleNum cellBorderWidth]>
              (<["borderTopWidth" := StyleNum cellBorderWidth]> classStyle)))
  | BorderLR =>
      <["borderColor" := borderColor]>
        (<["borderRightWidth" := StyleNum cellBorderWidth]>
           (<["borderLeftWidth" := StyleNum cellBorderWidth]> classStyle))
  end.

(** [border[type] || border.clear]: for a [type] of the declared type every
    entry is an object, so the fallback is never taken. *)
Definition _getClassStyle (type : ClassName) (active : bool) : style :=
  border active type.

(** [[...Array(codeLength).keys()]] *)
Definition codeInputs : list nat := seq 0 (codeLength props).

(** The cells of [renderContent]. *)
Definition renderContent (state : IState) : list (CellView number) :=
  (λ index,
     {| view_index := index;
        view_active := bool_decide (currentIndex state = index);
        view_classStyle :=
          _getClassStyle className (bool_decide (currentIndex state = index));
        view_autoFocus := autoFocus && bool_decide (index = 0);
        view_value :=
          match codeArr state !! index with
          | Some c => if truthy c then c else ""
          | None => ""
          end |}) <$> codeInputs.

End Presentation.

Section Reachability.

Variable toLowerCase : string → string.
Variable props : CodeInputProps.

(** Entering [c] in cell [i] completes a code that differs from the
    configured target. *)
Definition mismatches (s : IState) (c : string) (i : nat) : Prop :=
  Z.of_nat i = (Z.of_nat (codeLength props) - 1)%Z ∧
  compareWithCode props ≠ "" ∧
  _isMatchingCode toLowerCase (join (array_set (codeArr s) i c))
    (Some (compareWithCode props)) (ignoreCase props) = false.

(** Events of regular use: any cell may gain focus, a character (never
    the empty text) goes into the cell the cursor is on, any key may be
    pressed, [clear()] may be called.  Completions that differ from the
    target are left aside. *)
Inductive admissible (s : IState) : event → Prop :=
| adm_focus k :
    k < codeLength props → admissible s (Focused k)
| adm_enter c :
    c ≠ "" → currentIndex s < codeLength props →
    ¬ mismatches s c (currentIndex s) →
    admissible s (ChangeText c (currentIndex s))
| adm_key key : admissible s (KeyPress key)
| adm_clear : admissible s Clear.

Inductive reachable : IState → Prop :=
| reach_init : reachable (initialState props)
| reach_step s ev :
    reachable s → admissible s ev →
    reachable (fst (handle toLowerCase props s ev)).

End Reachability.

(** ** Further vocabulary for the controller *)

(** An event that names an existing cell, as every event raised by a
    rendered cell does ([codeInputs] holds [0 .. codeLength - 1]). *)
Definition inRange (len : nat) (ev : event) : Prop :=
  match ev with
  | Focused k => k < len
  | ChangeText _ i => i < len
  | KeyPress _ | Clear => True
  end.

(** A text change in the last cell, the only event that completes a code. *)
Definition isLastCellEntry (len : nat) (ev : event) : bool :=
  match ev with
  | ChangeText _ i => bool_decide (Z.of_nat i = Z.of_nat len - 1)%Z
  | _ => false
  end.

(** The requests made to the host (focus, blur), without the callbacks. *)
Definition hostRequests (effs : list effect) : list effect :=
  omap (λ e, if isCallback e then None else Some e) effs.

(** The same props with the two callbacks supplied or not. *)
Definition withCallbacks (props : CodeInputProps) (fulfill change : bool)
  : CodeInputProps :=
  {| prop_codeLength := prop_codeLength props;
     prop_compareWithCode := prop_compareWithCode props;
     prop_inputPosition := prop_inputPosition props;
     prop_ignoreCase := prop_ignoreCase props;
     prop_onFulfill := fulfill;
     prop_onCodeChange := change |}.

(** The controller run with other props than the ones at hand. *)
Definition handleWith := handle.
Definition runWith := run.

(** A backspace key press followed by the focus event of the cell the
    handler asked the host to focus. *)
Definition deleteOnce (toLowerCase : string → string) (props : CodeInputProps)
    (s : IState) : IState :=
  fst (run toLowerCase props s
         [KeyPress "Backspace"; Focused (clampedPrev (currentIndex s))]).

(** ** Arrays and strings *)

Lemma truthy_true s : truthy s = true ↔ s ≠ "".
Proof. unfold truthy. by rewrite bool_decide_eq_true. Qed.

Lemma truthy_false s : truthy s = false ↔ s = "".
Proof.
  unfold truthy. rewrite bool_decide_eq_false.
  destruct (decide (s = "")); naive_solver.
Qed.

Lemma append_cons a (s t : string) : String a s +:+ t = String a (s +:+ t).
Proof. done. Qed.

Lemma append_empty_r (s : string) : s +:+ "" = s.
Proof. induction s as [|a s IH]; [done | by rewrite append_cons, IH]. Qed.

Lemma append_assoc (a b c : string) : (a +:+ b) +:+ c = a +:+ (b +:+ c).
Proof. induction a as [|x a IH]; [done | by rewrite !append_cons, IH]. Qed.

Lemma join_nil : join [] = "".
Proof. done. Qed.

Lemma join_cons c arr : join (c :: arr) = c +:+ join arr.
Proof.
  unfold join. destruct arr as [|d arr]; simpl; [by rewrite append_empty_r | done].
Qed.

Lemma join_app arr1 arr2 : join (arr1 ++ arr2) = join arr1 +:+ join arr2.
Proof.
  induction arr1 as [|c arr1 IH]; [done |].
  rewrite <- app_comm_cons, !join_cons, IH. by rewrite append_assoc.
Qed.

Lemma join_emptyCells n : join (emptyCells n) = "".
Proof.
  unfold emptyCells. induction n as [|n IH]; [done |].
  simpl replicate. by rewrite join_cons, IH.
Qed.

(** Empty slots contribute nothing to the joined string. *)
Lemma join_skips_empty arr : join arr = join (filter (λ c, c ≠ "") arr).
Proof.
  induction arr as [|c arr IH]; [done |].
  rewrite filter_cons. destruct (decide (c ≠ "")) as [Hc|Hc].
  - by rewrite !join_cons, IH.
  - rewrite join_cons, IH. destruct (decide (c = "")) as [->|]; [done | contradiction].
Qed.

Lemma length_emptyCells n : length (emptyCells n) = n.
Proof. apply length_replicate. Qed.

Lemma lookup_emptyCells n i c : emptyCells n !! i = Some c → c = "".
Proof. unfold emptyCells. intros H. by apply lookup_replicate in H as [-> _]. Qed.

Lemma length_clearFrom k arr : length (clearFrom k arr) = length arr.
Proof. unfold clearFrom. apply length_imap. Qed.

Lemma lookup_clearFrom k arr i :
  clearFrom k arr !! i =
  (λ c, if bool_decide (k ≤ i) then "" else c) <$> arr !! i.
Proof. unfold clearFrom. apply list_lookup_imap. Qed.

Lemma lookup_clearFrom_lt k arr i : i < k → clearFrom k arr !! i = arr !! i.
Proof.
  intros Hi. rewrite lookup_clearFrom, bool_decide_eq_false_2 by lia.
  by destruct (arr !! i).
Qed.

Lemma lookup_clearFrom_ge k arr i c :
  k ≤ i → clearFrom k arr !! i = Some c → c = "".
Proof.
  intros Hi. rewrite lookup_clearFrom, bool_decide_eq_true_2 by lia.
  destruct (arr !! i); simpl; congruence.
Qed.

(** The loop keeps the first [k] slots and blanks the rest. *)
Lemma clearFrom_take k arr :
  clearFrom k arr = take k arr ++ emptyCells (length arr - k).
Proof.
  apply list_eq. intros i. rewrite lookup_clearFrom.
  destruct (decide (i < k)) as [Hi|Hi].
  - rewrite bool_decide_eq_false_2 by lia.
    destruct (decide (i < length arr)) as [Hl|Hl].
    + rewrite lookup_app_l by (rewrite length_take; lia).
      rewrite lookup_take_lt by lia. by destruct (arr !! i).
    + rewrite (lookup_ge_None_2 arr i) by lia. simpl. symmetry.
      apply lookup_ge_None_2.
      rewrite length_app, length_take, length_emptyCells. lia.
  - rewrite bool_decide_eq_true_2 by lia.
    destruct (decide (i < length arr)) as [Hl|Hl].
    + destruct (lookup_lt_is_Some_2 arr i Hl) as [c Hc]. rewrite Hc. simpl.
      rewrite lookup_app_r by (rewrite length_take; lia).
      rewrite length_take. unfold emptyCells. symmetry.
      apply lookup_replicate_2. lia.
    + rewrite (lookup_ge_None_2 arr i) by lia. simpl. symmetry.
      apply lookup_ge_None_2.
      rewrite length_app, length_take, length_emptyCells. lia.
Qed.

Lemma clearFrom_0 arr : clearFrom 0 arr = emptyCells (length arr).
Proof. by rewrite clearFrom_take, take_0, Nat.sub_0_r. Qed.

(** Blanking slots that are blank already changes nothing. *)
Lemma clearFrom_id k arr :
  (∀ i c, k ≤ i → arr !! i = Some c → c = "") → clearFrom k arr = arr.
Proof.
  intros H. apply list_eq. intros i. rewrite lookup_clearFrom.
  destruct (arr !! i) as [c|] eqn:Hc; [simpl | done].
  case_bool_decide; [| done]. f_equal. symmetry. by eapply H.
Qed.

Lemma findIndex_Some arr e :
  findIndex arr = Some e ↔
  arr !! e = Some "" ∧ ∀ j c, j < e → arr !! j = Some c → c ≠ "".
Proof.
  unfold findIndex. split.
  - intros H. apply fmap_Some in H as [[i c] [H ->]]. simpl.
    apply list_find_Some in H as (Hl & -> & Hlt). split; [done |].
    intros j d Hj Hd. by eapply Hlt.
  - intros [Hl Hlt]. apply fmap_Some. exists (e, ""). split; [| done].
    apply list_find_Some. repeat split; [done |].
    intros j d Hd Hj. by eapply Hlt.
Qed.

Lemma findIndex_None arr :
  findIndex arr = None ↔ ∀ j c, arr !! j = Some c → c ≠ "".
Proof.
  unfold findIndex. rewrite fmap_None, list_find_None, Forall_lookup. done.
Qed.

Lemma length_array_set arr i c :
  length (array_set arr i c) = max (length arr) (S i).
Proof.
  unfold array_set. case_bool_decide.
  - rewrite length_insert. lia.
  - rewrite !length_app, length_replicate. simpl. lia.
Qed.

Lemma lookup_array_set_eq arr i c : array_set arr i c !! i = Some c.
Proof.
  unfold array_set. case_bool_decide.
  - by apply list_lookup_insert_eq.
  - rewrite lookup_app_r by lia. rewrite lookup_app_r; rewrite length_replicate; [| lia].
    by replace (i - length arr - (i - length arr)) with 0 by lia.
Qed.

Lemma lookup_array_set_ne arr i j c :
  i ≠ j → j < length arr → array_set arr i c !! j = arr !! j.
Proof.
  intros Hij Hj. unfold array_set. case_bool_decide.
  - by apply list_lookup_insert_ne.
  - by rewrite lookup_app_l.
Qed.

(** Writing the first blank slot after a prefix. *)
Lemma array_set_prefix pre n c :
  array_set (pre ++ emptyCells (S n)) (length pre) c = (pre ++ [c]) ++ emptyCells n.
Proof.
  unfold array_set. rewrite bool_decide_eq_true_2.
  - rewrite insert_app_r_alt by lia. rewrite Nat.sub_diag. simpl.
    by rewrite <- app_assoc.
  - rewrite length_app, length_emptyCells. lia.
Qed.

(** ** What each handler does, as equations *)

Ltac unfold_handler :=
  unfold handle, dispatch, _onInputCode, _onKeyPress, _onFocus, clear,
    _setFocus, _blur, when, bind, call, setState, ret.

Section Equations.

Variable toLowerCase : string → string.
Variable props : CodeInputProps.

Local Abbreviation len := (codeLength props).
Local Abbreviation handle := (handle toLowerCase props).
Local Abbreviation run := (run toLowerCase props).

Lemma nextIndex_clamped i :
  (if bool_decide (0 < i) then i - 1 else 0) = clampedPrev i.
Proof. unfold clampedPrev. case_bool_decide; lia. Qed.

Lemma handle_Focused_redirect s k e :
  findIndex (codeArr s) = Some e → e < k →
  handle s (Focused k) =
  (s, if bool_decide (e < len) then [FocusRequest e] else []).
Proof.
  intros He Hk. unfold_handler. rewrite He.
  rewrite (bool_decide_eq_true_2 (e < k)) by done.
  by case_bool_decide.
Qed.

Lemma handle_Focused_clear s k :
  (∀ j c, j < k → codeArr s !! j = Some c → c ≠ "") →
  handle s (Focused k) =
  ({| codeArr := clearFrom k (codeArr s); currentIndex := k |}, []).
Proof.
  intros Hk. unfold_handler.
  destruct (findIndex (codeArr s)) as [e|] eqn:He; [| done].
  apply findIndex_Some in He as [He _].
  case_bool_decide as Hlt; [| done].
  exfalso. by eapply Hk.
Qed.

Lemma handle_Backspace s :
  handle s (KeyPress "Backspace") =
  (s,
   (if prop_onCodeChange props
    then [OnCodeChange (join (clearFrom (clampedPrev (currentIndex s)) (codeArr s)))]
    else [])
   ++ (if bool_decide (clampedPrev (currentIndex s) < len)
       then [FocusRequest (clampedPrev (currentIndex s))] else [])).
Proof.
  unfold_handler. rewrite bool_decide_eq_true_2 by done.
  rewrite nextIndex_clamped.
  destruct (prop_onCodeChange props); by case_bool_decide.
Qed.

Lemma handle_other_key s key :
  key ≠ "Backspace" → handle s (KeyPress key) = (s, []).
Proof. intros Hk. unfold_handler. by rewrite bool_decide_eq_false_2. Qed.

Lemma fst_handle_KeyPress s key : fst (handle s (KeyPress key)) = s.
Proof.
  destruct (decide (key = "Backspace")) as [->|Hk].
  - by rewrite handle_Backspace.
  - by rewrite handle_other_key.
Qed.

Lemma handle_Clear s :
  handle s Clear =
  ({| codeArr := emptyCells len; currentIndex := 0 |},
   if bool_decide (0 < len) then [FocusRequest 0] else []).
Proof. unfold_handler. by case_bool_decide. Qed.

(** A character entered anywhere but in the last cell. *)
Lemma handle_ChangeText_inner s c i :
  Z.of_nat i ≠ (Z.of_nat len - 1)%Z →
  handle s (ChangeText c i) =
  ({| codeArr := array_set (codeArr s) i c;
      currentIndex := currentIndex s + 1 |},
   (if bool_decide (currentIndex s + 1 < len)
    then [FocusRequest (currentIndex s + 1)] else [])
   ++ (if prop_onCodeChange props
       then [OnCodeChange (join (array_set (codeArr s) i c))] else [])).
Proof.
  intros Hi. unfold_handler. rewrite bool_decide_eq_false_2 by done.
  case_bool_decide; destruct (prop_onCodeChange props); done.
Qed.

(** A character entered in the last cell, no comparison target. *)
Lemma handle_ChangeText_last_plain s c i :
  Z.of_nat i = (Z.of_nat len - 1)%Z →
  compareWithCode props = "" →
  handle s (ChangeText c i) =
  ({| codeArr := array_set (codeArr s) i c;
      currentIndex := currentIndex s + 1 |},
   (if prop_onFulfill props
    then [OnFulfill (join (array_set (codeArr s) i c)) None] else [])
   ++ (if bool_decide (currentIndex s < len)
       then [BlurRequest (currentIndex s)] else [])
   ++ (if prop_onCodeChange props
       then [OnCodeChange (join (array_set (codeArr s) i c))] else [])).
Proof.
  intros Hi Ht. unfold_handler. rewrite bool_decide_eq_true_2 by done.
  rewrite Ht. simpl.
  destruct (prop_onFulfill props); case_bool_decide;
    destruct (prop_onCodeChange props); done.
Qed.

(** A character entered in the last cell, the code matching the target. *)
Lemma handle_ChangeText_last_match s c i :
  Z.of_nat i = (Z.of_nat len - 1)%Z →
  compareWithCode props ≠ "" →
  _isMatchingCode toLowerCase (join (array_set (codeArr s) i c))
    (Some (compareWithCode props)) (ignoreCase props) = true →
  handle s (ChangeText c i) =
  ({| codeArr := array_set (codeArr s) i c;
      currentIndex := currentIndex s + 1 |},
   (if prop_onFulfill props
    then [OnFulfill (join (array_set (codeArr s) i c)) (Some true)] else [])
   ++ (if bool_decide (currentIndex s < len)
       then [BlurRequest (currentIndex s)] else [])
   ++ (if prop_onCodeChange props
       then [OnCodeChange (join (array_set (codeArr s) i c))] else [])).
Proof.
  intros Hi Ht Hm. unfold_handler. rewrite bool_decide_eq_true_2 by done.
  apply truthy_true in Ht. rewrite Ht, Hm. simpl.
  destruct (prop_onFulfill props); case_bool_decide;
    destruct (prop_onCodeChange props); done.
Qed.

(** A character entered in the last cell, the code differing from the
    target: [clear()] runs, and the updater queued after it runs on the
    state [clear()] left. *)
Lemma handle_ChangeText_last_mismatch s c i :
  Z.of_nat i = (Z.of_nat len - 1)%Z →
  compareWithCode props ≠ "" →
  _isMatchingCode toLowerCase (join (array_set (codeArr s) i c))
    (Some (compareWithCode props)) (ignoreCase props) = false →
  handle s (ChangeText c i) =
  ({| codeArr := array_set (codeArr s) i c; currentIndex := 1 |},
   (if prop_onFulfill props
    then [OnFulfill (join (array_set (codeArr s) i c)) (Some false)] else [])
   ++ [FocusRequest 0]
   ++ (if bool_decide (currentIndex s < len)
       then [BlurRequest (currentIndex s)] else [])
   ++ (if prop_onCodeChange props
       then [OnCodeChange (join (array_set (codeArr s) i c))] else [])).
Proof.
  intros Hi Ht Hm. unfold_handler. rewrite bool_decide_eq_true_2 by done.
  apply truthy_true in Ht. rewrite Ht, Hm. simpl.
  rewrite (bool_decide_eq_true_2 (0 < len)) by lia.
  destruct (prop_onFulfill props); case_bool_decide;
    destruct (prop_onCodeChange props); done.
Qed.

Lemma run_app s evs1 evs2 :
  run s (evs1 ++ evs2) =
  let '(s1, e1) := run s evs1 in
  let '(s2, e2) := run s1 evs2 in
  (s2, e1 ++ e2).
Proof.
  revert s. induction evs1 as [|ev evs1 IH]; intros s; simpl.
  - by destruct (run s evs2).
  - destruct (handle s ev) as [s0 e0]. rewrite IH.
    destruct (run s0 evs1) as [s1 e1]. destruct (run s1 evs2) as [s2 e2].
    by rewrite app_assoc.
Qed.

Lemma run_singleton s ev : run s [ev] = handle s ev.
Proof. simpl. destruct (handle s ev) as [s1 e1]. by rewrite app_nil_r. Qed.

Lemma run_cons s ev evs :
  run s (ev :: evs) =
  (fst (run (fst (handle s ev)) evs),
   snd (handle s ev) ++ snd (run (fst (handle s ev)) evs)).
Proof.
  simpl. destruct (handle s ev) as [s1 e1]. simpl.
  by destruct (run s1 evs).
Qed.

End Equations.

(** ** The focus handler on its own *)

Section Focus.

Variable toLowerCase : string → string.
Variable props : CodeInputProps.

Local Abbreviation len := (codeLength props).
Local Abbreviation handle := (handle toLowerCase props).

Lemma findIndex_le arr j :
  arr !! j = Some "" → ∃ e, findIndex arr = Some e ∧ e ≤ j.
Proof.
  intros Hj. destruct (findIndex arr) as [e|] eqn:He.
  - exists e. split; [done |]. apply findIndex_Some in He as [_ Hmin].
    destruct (decide (e ≤ j)) as [|Hn]; [done |].
    exfalso. apply (Hmin j ""); [lia | done | done].
  - exfalso. eapply findIndex_None; eauto.
Qed.

Lemma findIndex_lt_length arr e : findIndex arr = Some e → e < length arr.
Proof. intros [He _]%findIndex_Some. by eapply lookup_lt_Some. Qed.

(** Focusing cell 0 always blanks the whole array. *)
Lemma handle_Focused_0 s :
  handle s (Focused 0) =
  ({| codeArr := emptyCells (length (codeArr s)); currentIndex := 0 |}, []).
Proof.
  rewrite handle_Focused_clear by (intros; lia). by rewrite clearFrom_0.
Qed.

(** The focus event for the cell the cursor is on, in a partitioned state,
    changes nothing: this is the event the host sends after the focus
    transfer requested by a character entry. *)
Lemma handle_Focused_cursor s :
  partition len s → handle s (Focused (currentIndex s)) = (s, []).
Proof.
  intros (_ & _ & Hpre & Hsuf).
  rewrite handle_Focused_clear by done.
  rewrite clearFrom_id by done. by destruct s.
Qed.

Lemma fst_handle_Focused s k :
  fst (handle s (Focused k)) =
  match findIndex (codeArr s) with
  | Some e =>
      if bool_decide (e < k) then s
      else {| codeArr := clearFrom k (codeArr s); currentIndex := k |}
  | None => {| codeArr := clearFrom k (codeArr s); currentIndex := k |}
  end.
Proof.
  unfold_handler. destruct (findIndex (codeArr s)) as [e|]; [| done].
  case_bool_decide; [| done]. by case_bool_decide.
Qed.

End Focus.

(** ** Claims about single handlers *)

Section Claims.

Variable toLowerCase : string → string.
Variable props : CodeInputProps.

Local Abbreviation len := (codeLength props).
Local Abbreviation handle := (handle toLowerCase props).
Local Abbreviation run := (run toLowerCase props).

(** C9: the backspace key handler leaves the stored cells array and the
    stored focus index as they were, whatever the state and the key; the
    blanked array it computes only feeds the [onCodeChange] argument, and
    the store changes when the focus handler later runs on the target cell:
    that handler stores the blanked array and the target index, unless a
    slot before the target is empty. *)
Theorem C9_backspace_handler_keeps_store (s : IState) (key : string) :
  fst (handle s (KeyPress key)) = s
  ∧ onCodeChangeCalls (snd (handle s (KeyPress "Backspace"))) =
    (if prop_onCodeChange props
     then [join (clearFrom (clampedPrev (currentIndex s)) (codeArr s))]
     else [])
  ∧ fst (handle s (Focused (clampedPrev (currentIndex s)))) =
    match findIndex (codeArr s) with
    | Some e =>
        if bool_decide (e < clampedPrev (currentIndex s)) then s
        else {| codeArr := clearFrom (clampedPrev (currentIndex s)) (codeArr s);
                currentIndex := clampedPrev (currentIndex s) |}
    | None => {| codeArr := clearFrom (clampedPrev (currentIndex s)) (codeArr s);
                 currentIndex := clampedPrev (currentIndex s) |}
    end.
Proof.
  split; [| split].
  - apply fst_handle_KeyPress.
  - rewrite handle_Backspace. simpl.
    destruct (prop_onCodeChange props); by case_bool_decide.
  - apply fst_handle_Focused.
Qed.

(** C5 (amended): entering a character at an index strictly less than
    [codeLength - 1] writes it into that cell, advances the focus index to
    the current focus index plus one and requests a host focus transfer to
    that cell if it exists; when the entry is made at the current focus
    index, that is [index + 1], and the transfer is requested. *)
Theorem C5_enter_inner_cell (s : IState) (c : string) (i : nat) :
  (Z.of_nat i < Z.of_nat len - 1)%Z →
  handle s (ChangeText c i) =
    ({| codeArr := array_set (codeArr s) i c;
        currentIndex := currentIndex s + 1 |},
     (if bool_decide (currentIndex s + 1 < len)
      then [FocusRequest (currentIndex s + 1)] else [])
     ++ (if prop_onCodeChange props
         then [OnCodeChange (join (array_set (codeArr s) i c))] else []))
  ∧ array_set (codeArr s) i c !! i = Some c
  ∧ (i = currentIndex s →
     currentIndex (fst (handle s (ChangeText c i))) = i + 1
     ∧ FocusRequest (i + 1) ∈ snd (handle s (ChangeText c i))).
Proof.
  intros Hi. split; [| split].
  - apply handle_ChangeText_inner. lia.
  - apply lookup_array_set_eq.
  - intros ->. rewrite handle_ChangeText_inner by lia. simpl. split; [done |].
    rewrite bool_decide_eq_true_2 by lia.
    apply elem_of_app. left. apply list_elem_of_here.
Qed.

(** C6 (amended): [focus(k)] while a slot before [k] is empty leaves the
    store as it is, so no filled cell is cleared, and requests host focus on
    the first empty slot; otherwise it clears every slot at position [k] or
    later, keeps the slots before [k], sets the focus index to [k] and
    requests nothing from the host, which has put the focus on [k] already. *)
Theorem C6_focus_redirects_or_clears (s : IState) (k : nat) :
  length (codeArr s) = len →
  (∀ j, j < k → codeArr s !! j = Some "" →
     ∃ e, e ≤ j
          ∧ codeArr s !! e = Some ""
          ∧ (∀ i c, i < e → codeArr s !! i = Some c → c ≠ "")
          ∧ handle s (Focused k) = (s, [FocusRequest e]))
  ∧ ((∀ j c, j < k → codeArr s !! j = Some c → c ≠ "") →
     handle s (Focused k) =
       ({| codeArr := clearFrom k (codeArr s); currentIndex := k |}, [])
     ∧ (∀ j, j < k → clearFrom k (codeArr s) !! j = codeArr s !! j)
     ∧ (∀ j c, k ≤ j → clearFrom k (codeArr s) !! j = Some c → c = "")).
Proof.
  intros Hlen. split.
  - intros j Hj Hempty.
    destruct (findIndex_le _ _ Hempty) as (e & He & Hle).
    exists e. pose proof (findIndex_lt_length _ _ He) as Hlt.
    apply findIndex_Some in He as Hspec. destruct Hspec as [He1 He2].
    repeat split; [done | done | done |].
    rewrite (handle_Focused_redirect _ _ s k e) by (done || lia).
    by rewrite bool_decide_eq_true_2 by lia.
  - intros Hfilled. split; [| split].
    + by apply handle_Focused_clear.
    + intros j Hj. by apply lookup_clearFrom_lt.
    + intros j c Hj. by apply lookup_clearFrom_ge.
Qed.

(** C10: with the empty string as comparison target every event is handled
    exactly as with no target at all; completing the code calls [onFulfill]
    with the code and no match flag, stores the entered cells without a
    reset, and the props check reports no length mismatch although the
    target's length is not the code length. *)
Theorem C10_empty_target_is_no_target (s : IState) (ev : event)
    (c : string) (i : nat) :
  prop_compareWithCode props = Some "" →
  Z.of_nat i = (Z.of_nat len - 1)%Z →
  handle s ev = handleWithoutTarget toLowerCase props s ev
  ∧ handle s (ChangeText c i) =
    ({| codeArr := array_set (codeArr s) i c;
        currentIndex := currentIndex s + 1 |},
     (if prop_onFulfill props
      then [OnFulfill (join (array_set (codeArr s) i c)) None] else [])
     ++ (if bool_decide (currentIndex s < len)
         then [BlurRequest (currentIndex s)] else [])
     ++ (if prop_onCodeChange props
         then [OnCodeChange (join (array_set (codeArr s) i c))] else []))
  ∧ String.length (compareWithCode props) ≠ len
  ∧ ConsoleError "Invalid props: compareWith length is not equal to codeLength"
      ∉ checkProps props.
Proof.
  intros Ht Hi.
  assert (compareWithCode props = "") as Hc by (unfold compareWithCode; by rewrite Ht).
  split; [| split; [| split]].
  - clear Hi Hc. destruct props as [pl pt pp pi pf pc].
    simpl in Ht. subst pt. by destruct ev.
  - by apply handle_ChangeText_last_plain.
  - rewrite Hc. simpl. lia.
  - unfold checkProps. rewrite Hc. simpl.
    case_bool_decide; [apply not_elem_of_nil |].
    by intros [=]%list_elem_of_singleton.
Qed.

(** C1: entering the final character so that the joined code differs from a
    configured target calls [onFulfill(code, false)] and requests host focus
    on cell 0, but the store is not reset by the handler: the updater queued
    after [clear()] puts the entered cells back and sets the focus index
    to 1.  The cells are blanked only if a focus event for cell 0 follows. *)
Theorem C1_mismatch_reset_is_overwritten (s : IState) (c : string) (i : nat) :
  Z.of_nat i = (Z.of_nat len - 1)%Z →
  compareWithCode props ≠ "" →
  _isMatchingCode toLowerCase (join (array_set (codeArr s) i c))
    (Some (compareWithCode props)) (ignoreCase props) = false →
  prop_onFulfill props = true →
  onFulfillCalls (snd (handle s (ChangeText c i))) =
    [(join (array_set (codeArr s) i c), Some false)]
  ∧ FocusRequest 0 ∈ snd (handle s (ChangeText c i))
  ∧ fst (handle s (ChangeText c i)) =
    {| codeArr := array_set (codeArr s) i c; currentIndex := 1 |}
  ∧ fst (handle s (ChangeText c i)) ≠
    {| codeArr := emptyCells len; currentIndex := 0 |}
  ∧ fst (handle (fst (handle s (ChangeText c i))) (Focused 0)) =
    {| codeArr := emptyCells (length (array_set (codeArr s) i c));
       currentIndex := 0 |}.
Proof.
  intros Hi Ht Hm Hf.
  rewrite (handle_ChangeText_last_mismatch _ _ s c i Hi Ht Hm), Hf. simpl.
  repeat split.
  - by destruct (bool_decide _), (prop_onCodeChange props).
  - rewrite !elem_of_cons. auto.
  - congruence.
  - by rewrite handle_Focused_0.
Qed.

(** C7 (amended): a backspace key press, in a state with a filled prefix
    and an empty suffix (or with the code complete), leaves the stored cells
    and the stored focus index as they are, calls [onCodeChange] with the
    join of the cells blanked from [max(i - 1, 0)] on and requests a host
    focus transfer to [max(i - 1, 0)]; the blanked cells keep the slots
    before that index and are empty from it on, and the store is cleared
    only when the focus handler runs on that cell, which stores them with
    that index.  At focus index 0 the index stays 0 and the cells are
    unchanged.  The handler is a total function. *)
Theorem C7_backspace (s : IState) :
  1 ≤ len →
  prop_onCodeChange props = true →
  partition len s ∨ completed len s →
  handle s (KeyPress "Backspace") =
    (s, [OnCodeChange (join (clearFrom (clampedPrev (currentIndex s)) (codeArr s)));
         FocusRequest (clampedPrev (currentIndex s))])
  ∧ length (clearFrom (clampedPrev (currentIndex s)) (codeArr s)) = len
  ∧ (∀ j, j < clampedPrev (currentIndex s) →
       clearFrom (clampedPrev (currentIndex s)) (codeArr s) !! j = codeArr s !! j)
  ∧ (∀ j, clampedPrev (currentIndex s) ≤ j → j < len →
       clearFrom (clampedPrev (currentIndex s)) (codeArr s) !! j = Some "")
  ∧ handle s (Focused (clampedPrev (currentIndex s))) =
    ({| codeArr := clearFrom (clampedPrev (currentIndex s)) (codeArr s);
        currentIndex := clampedPrev (currentIndex s) |}, [])
  ∧ (currentIndex s = 0 →
     clampedPrev (currentIndex s) = 0
     ∧ clearFrom (clampedPrev (currentIndex s)) (codeArr s) = codeArr s).
Proof.
  intros Hlen Hcc Hinv.
  assert (length (codeArr s) = len ∧ currentIndex s ≤ len
          ∧ (∀ j c, j < currentIndex s → codeArr s !! j = Some c → c ≠ ""))
    as (Hl & Hidx & Hpre).
  { destruct Hinv as [(Hl & Hi & Hp & _)|(Hl & Hi & Hp)].
    - repeat split; [done | lia | done].
    - repeat split; [done | lia |]. intros j c _. apply Hp. }
  assert (clampedPrev (currentIndex s) < len) as Hnext
    by (unfold clampedPrev; lia).
  split; [| split; [| split; [| split; [| split]]]].
  - rewrite handle_Backspace, Hcc. by rewrite bool_decide_eq_true_2.
  - by rewrite length_clearFrom.
  - intros j Hj. by apply lookup_clearFrom_lt.
  - intros j Hj Hjl. rewrite lookup_clearFrom, bool_decide_eq_true_2 by done.
    destruct (lookup_lt_is_Some_2 (codeArr s) j) as [c Hc]; [lia |].
    by rewrite Hc.
  - apply handle_Focused_clear. intros j c Hj. apply Hpre.
    unfold clampedPrev in Hj. lia.
  - intros H0. split; [unfold clampedPrev; lia |].
    destruct Hinv as [(_ & _ & _ & Hsuf)|(_ & Hi & _)]; [| lia].
    apply clearFrom_id. intros j c Hj. apply Hsuf. lia.
Qed.

End Claims.

(** ** Typing a code cell by cell *)

Lemma typing_app start cs1 cs2 :
  typing start (cs1 ++ cs2) = typing start cs1 ++ typing (start + length cs1) cs2.
Proof.
  revert start. induction cs1 as [|c cs1 IH]; intros start; simpl.
  - by rewrite Nat.add_0_r.
  - rewrite IH. do 3 f_equal. lia.
Qed.

Lemma join_foldr arr : join arr = foldr String.append "" arr.
Proof. induction arr as [|c arr IH]; [done |]. by rewrite join_cons, IH. Qed.

Lemma snoc_inv {A} (l : list A) : l ≠ [] → ∃ l' x, l = l' ++ [x].
Proof.
  induction l as [|x l IH] using rev_ind; [done |]. intros _. by exists l, x.
Qed.

Section Typing.

Variable toLowerCase : string → string.
Variable props : CodeInputProps.

Local Abbreviation len := (codeLength props).
Local Abbreviation handle := (handle toLowerCase props).
Local Abbreviation run := (run toLowerCase props).

(** The state with [pre] typed and [m] blank cells left. *)
Local Abbreviation typed pre m :=
  {| codeArr := pre ++ emptyCells m; currentIndex := length pre |}.

(** Every character but the last: the cells fill up from the left, the
    cursor follows, [onFulfill] is not called, nothing is blurred and
    cell 0 is not asked to take the focus. *)
Lemma run_typing_inner cs : ∀ pre m,
  length pre + m = len → length cs < m →
  fst (run (typed pre m) (typing (length pre) cs)) =
    typed (pre ++ cs) (m - length cs)
  ∧ onFulfillCalls (snd (run (typed pre m) (typing (length pre) cs))) = []
  ∧ (FocusRequest 0 ∉ snd (run (typed pre m) (typing (length pre) cs)))
  ∧ (∀ k, BlurRequest k ∉ snd (run (typed pre m) (typing (length pre) cs))).
Proof.
  induction cs as [|c cs IH]; intros pre m Hlen Hm.
  - simpl. rewrite app_nil_r, Nat.sub_0_r.
    repeat split; [apply not_elem_of_nil | intros k; apply not_elem_of_nil].
  - simpl in Hm. destruct m as [|m]; [lia |].
    simpl typing. simpl run.
    rewrite handle_ChangeText_inner by lia. simpl currentIndex. simpl codeArr.
    rewrite array_set_prefix.
    replace (length pre + 1) with (length (pre ++ [c]))
      by (rewrite length_app; simpl; lia).
    replace (S (length pre)) with (length (pre ++ [c]))
      by (rewrite length_app; simpl; lia).
    destruct (IH (pre ++ [c]) m) as (Hst & Hful & Hfoc & Hblur);
      [rewrite length_app; simpl; lia | lia |].
    destruct (run _ (typing (length (pre ++ [c])) cs)) as [st effs].
    simpl in *. subst st.
    split; [by rewrite <- !app_assoc |].
    assert (length (pre ++ [c]) ≠ 0) by (rewrite length_app; simpl; lia).
    split; [| split].
    + unfold onFulfillCalls in *. rewrite !omap_app, Hful.
      by destruct (bool_decide _), (prop_onCodeChange props).
    + rewrite !elem_of_app. intros [[Hin|Hin]|Hin]; [| | done].
      * case_bool_decide; [| by apply elem_of_nil in Hin].
        apply list_elem_of_singleton in Hin. congruence.
      * destruct (prop_onCodeChange props); [| by apply elem_of_nil in Hin].
        by apply list_elem_of_singleton in Hin.
    + intros k. rewrite !elem_of_app. intros [[Hin|Hin]|Hin]; [| | by eapply Hblur].
      * case_bool_decide; [| by apply elem_of_nil in Hin].
        by apply list_elem_of_singleton in Hin.
      * destruct (prop_onCodeChange props); [| by apply elem_of_nil in Hin].
        by apply list_elem_of_singleton in Hin.
Qed.

(** Typing a whole code: the run up to the last character, then the
    last character entered in the last cell. *)
Lemma run_typing_split cs c :
  length cs + 1 = len →
  run (initialState props) (typing 0 (cs ++ [c])) =
  (fst (handle (typed cs 1) (ChangeText c (length cs))),
   snd (run (initialState props) (typing 0 cs))
   ++ snd (handle (typed cs 1) (ChangeText c (length cs)))).
Proof.
  intros Hlen. rewrite typing_app, run_app. simpl typing.
  destruct (run_typing_inner cs [] len) as (Hst & _); [done | lia |].
  change (typed [] len) with (initialState props) in Hst.
  change (length []) with 0 in Hst.
  destruct (run (initialState props) (typing 0 cs)) as [st effs].
  simpl in Hst. subst st. simpl "+". rewrite run_singleton.
  replace (len - length cs) with 1 by lia.
  by destruct (handle _ _).
Qed.

(** C3: for every code length of at least 1 with no comparison target,
    entering that many characters in order calls [onFulfill] exactly once,
    with the concatenation of the characters in the order typed and no match
    flag, and requests blur of the last cell; the cells then hold the
    characters typed. *)
Theorem C3_fulfill_once_without_target (chars : list string) :
  1 ≤ len →
  length chars = len →
  compareWithCode props = "" →
  prop_onFulfill props = true →
  onFulfillCalls (snd (run (initialState props) (typing 0 chars))) =
    [(foldr String.append "" chars, None)]
  ∧ BlurRequest (len - 1) ∈ snd (run (initialState props) (typing 0 chars))
  ∧ fst (run (initialState props) (typing 0 chars)) =
    {| codeArr := chars; currentIndex := len |}.
Proof.
  intros Hpos Hlen Ht Hf.
  destruct (snoc_inv chars) as (cs & c & ->);
    [intros ->; simpl in Hlen; lia |].
  rewrite length_app in Hlen. simpl in Hlen.
  rewrite run_typing_split by done.
  destruct (run_typing_inner cs [] len) as (_ & Hful & _); [done | lia |].
  change (typed [] len) with (initialState props) in Hful.
  change (length []) with 0 in Hful.
  rewrite handle_ChangeText_last_plain by (done || lia).
  simpl codeArr. simpl currentIndex. rewrite array_set_prefix, app_nil_r, Hf.
  simpl fst. simpl snd. rewrite <- join_foldr.
  rewrite bool_decide_eq_true_2 by lia.
  split; [| split].
  - unfold onFulfillCalls in *. rewrite omap_app, Hful. simpl.
    by destruct (prop_onCodeChange props).
  - apply elem_of_app. right. apply elem_of_cons. right.
    replace (len - 1) with (length cs) by lia. apply list_elem_of_here.
  - f_equal. lia.
Qed.

(** C4: with a comparison target configured, entering a sequence whose join
    equals the target (as strings when the case flag is off or absent, after
    lower-casing both when it is on) calls [onFulfill(code, true)] exactly
    once and leaves the cells as typed: no reset, no focus request on
    cell 0. *)
Theorem C4_match_keeps_cells (chars : list string) :
  1 ≤ len →
  length chars = len →
  compareWithCode props ≠ "" →
  (if default false (ignoreCase props)
   then toLowerCase (join chars) = toLowerCase (compareWithCode props)
   else join chars = compareWithCode props) →
  prop_onFulfill props = true →
  onFulfillCalls (snd (run (initialState props) (typing 0 chars))) =
    [(join chars, Some true)]
  ∧ fst (run (initialState props) (typing 0 chars)) =
    {| codeArr := chars; currentIndex := len |}
  ∧ FocusRequest 0 ∉ snd (run (initialState props) (typing 0 chars)).
Proof.
  intros Hpos Hlen Ht Hm Hf.
  destruct (snoc_inv chars) as (cs & c & ->);
    [intros ->; simpl in Hlen; lia |].
  rewrite length_app in Hlen. simpl in Hlen.
  rewrite run_typing_split by done.
  destruct (run_typing_inner cs [] len) as (_ & Hful & Hfoc & _); [done | lia |].
  change (typed [] len) with (initialState props) in Hful, Hfoc.
  change (length []) with 0 in Hful, Hfoc.
  rewrite handle_ChangeText_last_match; [| lia | done |].
  - simpl codeArr. simpl currentIndex. rewrite array_set_prefix, app_nil_r, Hf.
    simpl fst. simpl snd.
    split; [| split].
    + unfold onFulfillCalls in *. rewrite omap_app, Hful. simpl.
      by destruct (bool_decide _), (prop_onCodeChange props).
    + f_equal. lia.
    + rewrite elem_of_app. intros [Hin|Hin]; [done |].
      apply elem_of_cons in Hin as [|Hin]; [done |].
      apply elem_of_app in Hin as [Hin|Hin].
      * case_bool_decide; [| by apply elem_of_nil in Hin].
        by apply list_elem_of_singleton in Hin.
      * destruct (prop_onCodeChange props); [| by apply elem_of_nil in Hin].
        by apply list_elem_of_singleton in Hin.
  - simpl codeArr. rewrite array_set_prefix, app_nil_r.
    unfold _isMatchingCode. simpl default at 1.
    destruct (default false (ignoreCase props)); by apply bool_decide_eq_true_2.
Qed.

End Typing.

(** ** Callbacks per event, and the state invariant *)

Section Invariant.

Variable toLowerCase : string → string.
Variable props : CodeInputProps.

Local Abbreviation len := (codeLength props).
Local Abbreviation handle := (handle toLowerCase props).
Local Abbreviation run := (run toLowerCase props).

(** Every text change calls [onCodeChange] once, whichever branch runs. *)
Lemma onCodeChangeCalls_ChangeText s c i :
  onCodeChangeCalls (snd (handle s (ChangeText c i))) =
  if prop_onCodeChange props then [join (array_set (codeArr s) i c)] else [].
Proof.
  destruct (decide (Z.of_nat i = (Z.of_nat len - 1)%Z)) as [Hi|Hi].
  - destruct (decide (compareWithCode props = "")) as [Ht|Ht].
    + rewrite handle_ChangeText_last_plain by done. simpl.
      by destruct (prop_onFulfill props), (bool_decide _),
        (prop_onCodeChange props).
    + destruct (_isMatchingCode toLowerCase (join (array_set (codeArr s) i c))
                  (Some (compareWithCode props)) (ignoreCase props)) eqn:Hm.
      * rewrite handle_ChangeText_last_match by done. simpl.
        by destruct (prop_onFulfill props), (bool_decide _),
          (prop_onCodeChange props).
      * rewrite handle_ChangeText_last_mismatch by done. simpl.
        by destruct (prop_onFulfill props), (bool_decide _),
          (prop_onCodeChange props).
  - rewrite handle_ChangeText_inner by done. simpl.
    by destruct (bool_decide _), (prop_onCodeChange props).
Qed.

Lemma partition_initial : 1 ≤ len → partition len (initialState props).
Proof.
  intros Hlen. unfold partition, initialState. simpl.
  rewrite length_emptyCells. repeat split; [lia | lia |].
  intros i c _. apply lookup_emptyCells.
Qed.

(** Whatever the cells hold, a focus event either changes nothing or
    leaves a partitioned state. *)
Lemma partition_Focused s k :
  length (codeArr s) = len → k < len →
  fst (handle s (Focused k)) = s ∨ partition len (fst (handle s (Focused k))).
Proof.
  intros Hl Hk. rewrite fst_handle_Focused.
  assert ((∀ j c, j < k → codeArr s !! j = Some c → c ≠ "") →
          partition len {| codeArr := clearFrom k (codeArr s);
                           currentIndex := k |}) as Hpart.
  { intros Hpre. unfold partition. simpl. rewrite length_clearFrom.
    repeat split; [done | done | |].
    - intros j c Hj. rewrite lookup_clearFrom_lt by done. by apply Hpre.
    - intros j c Hj. by apply lookup_clearFrom_ge. }
  destruct (findIndex (codeArr s)) as [e|] eqn:He.
  - case_bool_decide as Hlt; [by left |]. right. apply Hpart.
    apply findIndex_Some in He as [_ Hmin].
    intros j c Hj. apply Hmin. lia.
  - right. apply Hpart. intros j c _. by eapply findIndex_None.
Qed.

(** A character entered at the cursor of a partitioned state. *)
Lemma array_set_cursor_lookup s c j d :
  partition len s →
  array_set (codeArr s) (currentIndex s) c !! j = Some d →
  (j < currentIndex s ∧ codeArr s !! j = Some d)
  ∨ (j = currentIndex s ∧ d = c)
  ∨ (currentIndex s < j ∧ codeArr s !! j = Some d).
Proof.
  intros (Hl & Hi & _ & _) Hj.
  destruct (decide (j = currentIndex s)) as [->|Hne].
  - rewrite lookup_array_set_eq in Hj. right. left. split; congruence.
  - assert (j < length (codeArr s)) as Hjl.
    { apply lookup_lt_Some in Hj. rewrite length_array_set in Hj. lia. }
    rewrite lookup_array_set_ne in Hj by done.
    destruct (decide (j < currentIndex s)); [left | right; right];
      (split; [lia | done]).
Qed.

Lemma invariant_step s ev :
  1 ≤ len →
  partition len s ∨ completed len s →
  admissible toLowerCase props s ev →
  partition len (fst (handle s ev)) ∨ completed len (fst (handle s ev)).
Proof.
  intros Hlen Hinv Hadm.
  assert (length (codeArr s) = len) as Hl
    by (destruct Hinv as [(? & _)|(? & _)]; done).
  destruct Hadm as [k Hk|c Hc Hidx Hmis|key|].
  - destruct (partition_Focused s k Hl Hk) as [Heq|Hp]; [by rewrite Heq | by left].
  - destruct Hinv as [Hpart|(_ & Hi & _)]; [| lia].
    pose proof Hpart as (_ & _ & Hpre & Hsuf).
    assert (length (array_set (codeArr s) (currentIndex s) c) = len) as Hl'
      by (rewrite length_array_set; lia).
    destruct (decide (Z.of_nat (currentIndex s) = (Z.of_nat len - 1)%Z))
      as [Hlast|Hinner].
    + right.
      assert (fst (handle s (ChangeText c (currentIndex s))) =
              {| codeArr := array_set (codeArr s) (currentIndex s) c;
                 currentIndex := currentIndex s + 1 |}) as ->.
      { destruct (decide (compareWithCode props = "")) as [Ht|Ht].
        - by rewrite handle_ChangeText_last_plain.
        - rewrite handle_ChangeText_last_match; [done | done | done |].
          apply not_false_is_true. intros Hm. by apply Hmis. }
      unfold completed. simpl. repeat split; [done | lia |].
      intros j d Hj.
      destruct (array_set_cursor_lookup s c j d Hpart Hj)
        as [[Hlt Hd]|[[-> ->]|[Hgt Hd]]]; [by eapply Hpre | done |].
      apply lookup_lt_Some in Hd. lia.
    + left. rewrite handle_ChangeText_inner by done.
      unfold partition. simpl. repeat split; [done | lia | |].
      * intros j d Hlt Hj.
        destruct (array_set_cursor_lookup s c j d Hpart Hj)
          as [[? Hd]|[[-> ->]|[? Hd]]]; [by eapply Hpre | done | lia].
      * intros j d Hge Hj.
        destruct (array_set_cursor_lookup s c j d Hpart Hj)
          as [[? Hd]|[[-> ->]|[? Hd]]]; [lia | lia |].
        eapply Hsuf; [| done]. lia.
  - by rewrite fst_handle_KeyPress.
  - left. rewrite handle_Clear. by apply partition_initial.
Qed.

(** C8 (amended): [onCodeChange] is called exactly once per character entry
    and exactly once per backspace, with the join of the cells after the
    write (after the blanking, for a backspace), a string to which empty
    slots add nothing.  With four cells and no target, typing 1, 2, 3, 4
    gives four [onCodeChange] calls, with 1, 12, 123 and 1234, and one
    [onFulfill] call with 1234 and no flag, made before the fourth
    [onCodeChange] call. *)
Theorem C8_onCodeChange_once_per_event (s : IState) (c : string) (i : nat) :
  prop_onCodeChange props = true →
  onCodeChangeCalls (snd (handle s (ChangeText c i))) =
    [join (array_set (codeArr s) i c)]
  ∧ onCodeChangeCalls (snd (handle s (KeyPress "Backspace"))) =
    [join (clearFrom (clampedPrev (currentIndex s)) (codeArr s))]
  ∧ (∀ arr, join arr = join (filter (λ c, c ≠ "") arr))
  ∧ callbackTrace (effectsOfTyping1234 toLowerCase) =
    [OnCodeChange "1"; OnCodeChange "12"; OnCodeChange "123";
     OnFulfill "1234" None; OnCodeChange "1234"].
Proof.
  intros Hcc. split; [| split; [| split]].
  - by rewrite onCodeChangeCalls_ChangeText, Hcc.
  - rewrite handle_Backspace, Hcc. simpl. by case_bool_decide.
  - apply join_skips_empty.
  - reflexivity.
Qed.

(** C2 (amended): every state reachable from the initial all-empty state by
    focus events on existing cells, non-empty characters entered in the cell
    the focus index points to, key presses and [clear()] (completions that
    differ from a configured target set aside) has [codeLength] cells and
    either a focus index in [0, codeLength - 1] with all slots before it
    non-empty and all slots from it on empty, or all cells non-empty and
    the focus index equal to [codeLength]; the latter state lasts until the
    next focus event or [clear()]. *)
Theorem C2_reachable_invariant (s : IState) :
  1 ≤ len →
  reachable toLowerCase props s →
  partition len s ∨ completed len s.
Proof.
  intros Hlen Hreach. induction Hreach as [|s ev _ IH Hadm].
  - left. by apply partition_initial.
  - by apply invariant_step.
Qed.

End Invariant.

(** ** The theorems at concrete inputs *)

Lemma C1_mismatch_reset_is_overwritten_witness :
  Z.of_nat 1 = (Z.of_nat (codeLength (mkProps 2 (Some "ab") None)) - 1)%Z
  ∧ compareWithCode (mkProps 2 (Some "ab") None) ≠ ""
  ∧ _isMatchingCode asciiToLowerCase (join (array_set ["a"; ""] 1 "x"))
      (Some (compareWithCode (mkProps 2 (Some "ab") None)))
      (ignoreCase (mkProps 2 (Some "ab") None)) = false
  ∧ prop_onFulfill (mkProps 2 (Some "ab") None) = true
  ∧ handle asciiToLowerCase (mkProps 2 (Some "ab") None)
      {| codeArr := ["a"; ""]; currentIndex := 1 |} (ChangeText "x" 1) =
    ({| codeArr := ["a"; "x"]; currentIndex := 1 |},
     [OnFulfill "ax" (Some false); FocusRequest 0; BlurRequest 1;
      OnCodeChange "ax"])
  ∧ fst (handle asciiToLowerCase (mkProps 2 (Some "ab") None)
           {| codeArr := ["a"; ""]; currentIndex := 1 |} (ChangeText "x" 1)) ≠
    {| codeArr := emptyCells 2; currentIndex := 0 |}.
Proof.
  assert (Z.of_nat 1 = (Z.of_nat (codeLength (mkProps 2 (Some "ab") None)) - 1)%Z)
    as H1 by reflexivity.
  assert (compareWithCode (mkProps 2 (Some "ab") None) ≠ "") as H2 by done.
  assert (_isMatchingCode asciiToLowerCase (join (array_set ["a"; ""] 1 "x"))
            (Some (compareWithCode (mkProps 2 (Some "ab") None)))
            (ignoreCase (mkProps 2 (Some "ab") None)) = false)
    as H3 by reflexivity.
  assert (prop_onFulfill (mkProps 2 (Some "ab") None) = true) as H4
    by reflexivity.
  split_and!; [exact H1 | exact H2 | exact H3 | exact H4 | reflexivity |].
  exact (proj1 (proj2 (proj2 (proj2
    (C1_mismatch_reset_is_overwritten asciiToLowerCase
       (mkProps 2 (Some "ab") None)
       {| codeArr := ["a"; ""]; currentIndex := 1 |} "x" 1 H1 H2 H3 H4))))).
Defined.

Lemma C2_reachable_invariant_witness :
  1 ≤ codeLength (mkProps 3 None None)
  ∧ reachable asciiToLowerCase (mkProps 3 None None)
      (fst (handle asciiToLowerCase (mkProps 3 None None)
              (initialState (mkProps 3 None None)) (ChangeText "a" 0)))
  ∧ (partition (codeLength (mkProps 3 None None))
       (fst (handle asciiToLowerCase (mkProps 3 None None)
               (initialState (mkProps 3 None None)) (ChangeText "a" 0)))
     ∨ completed (codeLength (mkProps 3 None None))
         (fst (handle asciiToLowerCase (mkProps 3 None None)
                 (initialState (mkProps 3 None None)) (ChangeText "a" 0)))).
Proof.
  assert (1 ≤ codeLength (mkProps 3 None None)) as H1 by (cbv; first [reflexivity | lia]).
  assert (reachable asciiToLowerCase (mkProps 3 None None)
            (fst (handle asciiToLowerCase (mkProps 3 None None)
                    (initialState (mkProps 3 None None)) (ChangeText "a" 0))))
    as H2.
  { apply reach_step; [apply reach_init |].
    apply (adm_enter asciiToLowerCase (mkProps 3 None None)
             (initialState (mkProps 3 None None)) "a").
    - done.
    - cbv. lia.
    - intros (Hlast & _). cbv in Hlast. discriminate. }
  split; [exact H1 | split; [exact H2 |]].
  exact (C2_reachable_invariant asciiToLowerCase (mkProps 3 None None) _ H1 H2).
Defined.

Lemma C3_fulfill_once_without_target_witness :
  1 ≤ codeLength (mkProps 4 None None)
  ∧ length ["1"; "2"; "3"; "4"] = codeLength (mkProps 4 None None)
  ∧ compareWithCode (mkProps 4 None None) = ""
  ∧ prop_onFulfill (mkProps 4 None None) = true
  ∧ onFulfillCalls
      (snd (run asciiToLowerCase (mkProps 4 None None)
              (initialState (mkProps 4 None None))
              (typing 0 ["1"; "2"; "3"; "4"]))) = [("1234", None)].
Proof.
  assert (1 ≤ codeLength (mkProps 4 None None)) as H1 by (cbv; first [reflexivity | lia]).
  split_and!; [exact H1 | reflexivity | reflexivity | reflexivity |].
  exact (proj1 (C3_fulfill_once_without_target asciiToLowerCase
                  (mkProps 4 None None) ["1"; "2"; "3"; "4"]
                  H1 eq_refl eq_refl eq_refl)).
Defined.

Lemma C4_match_keeps_cells_witness :
  1 ≤ codeLength (mkProps 4 (Some "ABCD") (Some true))
  ∧ length ["a"; "b"; "c"; "d"] = codeLength (mkProps 4 (Some "ABCD") (Some true))
  ∧ compareWithCode (mkProps 4 (Some "ABCD") (Some true)) ≠ ""
  ∧ asciiToLowerCase (join ["a"; "b"; "c"; "d"]) =
    asciiToLowerCase (compareWithCode (mkProps 4 (Some "ABCD") (Some true)))
  ∧ prop_onFulfill (mkProps 4 (Some "ABCD") (Some true)) = true
  ∧ onFulfillCalls
      (snd (run asciiToLowerCase (mkProps 4 (Some "ABCD") (Some true))
              (initialState (mkProps 4 (Some "ABCD") (Some true)))
              (typing 0 ["a"; "b"; "c"; "d"]))) = [("abcd", Some true)]
  ∧ fst (run asciiToLowerCase (mkProps 4 (Some "ABCD") (Some true))
           (initialState (mkProps 4 (Some "ABCD") (Some true)))
           (typing 0 ["a"; "b"; "c"; "d"])) =
    {| codeArr := ["a"; "b"; "c"; "d"]; currentIndex := 4 |}.
Proof.
  assert (1 ≤ codeLength (mkProps 4 (Some "ABCD") (Some true))) as H1
    by (cbv; first [reflexivity | lia]).
  assert (compareWithCode (mkProps 4 (Some "ABCD") (Some true)) ≠ "") as H3
    by done.
  pose proof (C4_match_keeps_cells asciiToLowerCase
                (mkProps 4 (Some "ABCD") (Some true)) ["a"; "b"; "c"; "d"]
                H1 eq_refl H3 eq_refl eq_refl) as (Hcalls & Hst & _).
  split_and!; [exact H1 | reflexivity | exact H3 | reflexivity | reflexivity
              | exact Hcalls | exact Hst].
Defined.

Lemma C5_enter_inner_cell_witness :
  (Z.of_nat 0 < Z.of_nat (codeLength (mkProps 3 None None)) - 1)%Z
  ∧ handle asciiToLowerCase (mkProps 3 None None)
      (initialState (mkProps 3 None None)) (ChangeText "a" 0) =
    ({| codeArr := ["a"; ""; ""]; currentIndex := 1 |},
     [FocusRequest 1; OnCodeChange "a"]).
Proof.
  assert (Z.of_nat 0 < Z.of_nat (codeLength (mkProps 3 None None)) - 1)%Z
    as H1 by (cbv; first [reflexivity | lia]).
  split; [exact H1 |].
  exact (proj1 (C5_enter_inner_cell asciiToLowerCase (mkProps 3 None None)
                  (initialState (mkProps 3 None None)) "a" 0 H1)).
Defined.

Lemma C6_focus_redirects_or_clears_witness :
  length ["a"; ""; ""] = codeLength (mkProps 3 None None)
  ∧ (∃ e, handle asciiToLowerCase (mkProps 3 None None)
            {| codeArr := ["a"; ""; ""]; currentIndex := 1 |} (Focused 2) =
          ({| codeArr := ["a"; ""; ""]; currentIndex := 1 |}, [FocusRequest e]))
  ∧ handle asciiToLowerCase (mkProps 3 None None)
      {| codeArr := ["a"; "b"; ""]; currentIndex := 2 |} (Focused 1) =
    ({| codeArr := ["a"; ""; ""]; currentIndex := 1 |}, []).
Proof.
  split; [reflexivity | split].
  - destruct (proj1 (C6_focus_redirects_or_clears asciiToLowerCase
                       (mkProps 3 None None)
                       {| codeArr := ["a"; ""; ""]; currentIndex := 1 |} 2
                       eq_refl) 1) as (e & _ & _ & _ & He).
    + lia.
    + reflexivity.
    + exists e. exact He.
  - refine (proj1 (proj2 (C6_focus_redirects_or_clears asciiToLowerCase
                            (mkProps 3 None None)
                            {| codeArr := ["a"; "b"; ""]; currentIndex := 2 |} 1
                            eq_refl) _)).
    intros j c Hj Hc. destruct j as [|j]; [| lia].
    simpl in Hc. by injection Hc as <-.
Defined.

Lemma C7_backspace_witness :
  1 ≤ codeLength (mkProps 3 None None)
  ∧ prop_onCodeChange (mkProps 3 None None) = true
  ∧ partition (codeLength (mkProps 3 None None))
      {| codeArr := ["a"; "b"; ""]; currentIndex := 2 |}
  ∧ handle asciiToLowerCase (mkProps 3 None None)
      {| codeArr := ["a"; "b"; ""]; currentIndex := 2 |} (KeyPress "Backspace") =
    ({| codeArr := ["a"; "b"; ""]; currentIndex := 2 |},
     [OnCodeChange "a"; FocusRequest 1])
  ∧ handle asciiToLowerCase (mkProps 3 None None)
      {| codeArr := ["a"; "b"; ""]; currentIndex := 2 |} (Focused 1) =
    ({| codeArr := ["a"; ""; ""]; currentIndex := 1 |}, []).
Proof.
  assert (1 ≤ codeLength (mkProps 3 None None)) as H1 by (cbv; first [reflexivity | lia]).
  assert (partition (codeLength (mkProps 3 None None))
            {| codeArr := ["a"; "b"; ""]; currentIndex := 2 |}) as H3.
  { unfold partition. simpl. split_and!; [done | cbv; lia | |].
    - intros i c Hi Hc. destruct i as [|[|i]]; [| | lia];
        simpl in Hc; by injection Hc as <-.
    - intros i c Hi Hc. destruct i as [|[|[|i]]]; [lia | lia | |];
        simpl in Hc; [by injection Hc as <- | done]. }
  pose proof (C7_backspace asciiToLowerCase (mkProps 3 None None)
                {| codeArr := ["a"; "b"; ""]; currentIndex := 2 |}
                H1 eq_refl (or_introl H3)) as (Hk & _ & _ & _ & Hf & _).
  split_and!; [exact H1 | reflexivity | exact H3 | exact Hk | exact Hf].
Defined.

Lemma C8_onCodeChange_once_per_event_witness :
  prop_onCodeChange (mkProps 3 None None) = true
  ∧ onCodeChangeCalls
      (snd (handle asciiToLowerCase (mkProps 3 None None)
              {| codeArr := ["a"; ""; ""]; currentIndex := 1 |}
              (ChangeText "b" 1))) = ["ab"]
  ∧ onCodeChangeCalls
      (snd (handle asciiToLowerCase (mkProps 3 None None)
              {| codeArr := ["a"; ""; ""]; currentIndex := 1 |}
              (KeyPress "Backspace"))) = [""].
Proof.
  pose proof (C8_onCodeChange_once_per_event asciiToLowerCase
                (mkProps 3 None None)
                {| codeArr := ["a"; ""; ""]; currentIndex := 1 |} "b" 1
                eq_refl) as (Hc & Hb & _).
  split; [reflexivity | split; [exact Hc | exact Hb]].
Defined.

Lemma C10_empty_target_is_no_target_witness :
  prop_compareWithCode (mkProps 3 (Some "") None) = Some ""
  ∧ Z.of_nat 2 = (Z.of_nat (codeLength (mkProps 3 (Some "") None)) - 1)%Z
  ∧ handle asciiToLowerCase (mkProps 3 (Some "") None)
      {| codeArr := ["a"; "b"; ""]; currentIndex := 2 |} (ChangeText "c" 2) =
    ({| codeArr := ["a"; "b"; "c"]; currentIndex := 3 |},
     [OnFulfill "abc" None; BlurRequest 2; OnCodeChange "abc"]).
Proof.
  split; [reflexivity | split; [reflexivity |]].
  exact (proj1 (proj2 (C10_empty_target_is_no_target asciiToLowerCase
                         (mkProps 3 (Some "") None)
                         {| codeArr := ["a"; "b"; ""]; currentIndex := 2 |}
                         Clear "c" 2 eq_refl eq_refl))).
Defined.

(** ** Where the claims as written fail *)

(** C2: a character entered in a cell other than the one the focus index
    points to leaves an empty slot before the focus index and a filled one
    at it; and after a completed code a backspace leaves the focus index at
    [codeLength], outside [0, codeLength - 1], although the last operation
    is not the filling of the last cell. *)
Lemma C2_partition_fails :
  ¬ partition 3
      (fst (run asciiToLowerCase (mkProps 3 None None)
              (initialState (mkProps 3 None None)) [ChangeText "a" 1]))
  ∧ ¬ partition 2
        (fst (run asciiToLowerCase (mkProps 2 None None)
                (initialState (mkProps 2 None None))
                [ChangeText "a" 0; ChangeText "b" 1; KeyPress "Backspace"])).
Proof.
  split.
  - intros (_ & _ & Hpre & _).
    apply (Hpre 0 ""); [cbv; lia | reflexivity | reflexivity].
  - intros (_ & Hidx & _). cbv in Hidx. lia.
Qed.

(** C5: a character entered in cell 1 of three while the focus index is 0
    moves the focus index to 1 and requests focus on cell 1, not on
    [index + 1 = 2]. *)
Lemma C5_focus_follows_cursor_not_index :
  (Z.of_nat 1 < Z.of_nat (codeLength (mkProps 3 None None)) - 1)%Z
  ∧ handle asciiToLowerCase (mkProps 3 None None)
      (initialState (mkProps 3 None None)) (ChangeText "a" 1) =
    ({| codeArr := [""; "a"; ""]; currentIndex := 1 |},
     [FocusRequest 1; OnCodeChange "a"])
  ∧ currentIndex
      (fst (handle asciiToLowerCase (mkProps 3 None None)
              (initialState (mkProps 3 None None)) (ChangeText "a" 1))) ≠ 1 + 1
  ∧ FocusRequest (1 + 1)
      ∉ snd (handle asciiToLowerCase (mkProps 3 None None)
               (initialState (mkProps 3 None None)) (ChangeText "a" 1)).
Proof.
  split; [reflexivity | split; [reflexivity | split]].
  - cbv. lia.
  - simpl. rewrite !not_elem_of_cons. split_and!; [done | done |].
    apply not_elem_of_nil.
Qed.

(** C6: focusing cell 0 of the initial state, where no earlier slot is
    empty, clears and sets the focus index but requests no host focus. *)
Lemma C6_no_focus_request_when_clearing :
  (∀ j, j < 0 → codeArr (initialState (mkProps 3 None None)) !! j ≠ Some "")
  ∧ handle asciiToLowerCase (mkProps 3 None None)
      (initialState (mkProps 3 None None)) (Focused 0) =
    ({| codeArr := [""; ""; ""]; currentIndex := 0 |}, [])
  ∧ FocusRequest 0
      ∉ snd (handle asciiToLowerCase (mkProps 3 None None)
               (initialState (mkProps 3 None None)) (Focused 0)).
Proof.
  split; [intros j Hj; lia | split; [reflexivity |]].
  simpl. apply not_elem_of_nil.
Qed.

(** C7: with two of three cells filled and the focus index at 2, a
    backspace key press does not clear cell [max(2 - 1, 0) = 1] of the
    store: the stored cells and focus index are as before, only the string
    passed to [onCodeChange] is shortened. *)
Lemma C7_backspace_does_not_clear_the_store :
  clampedPrev 2 = 1
  ∧ handle asciiToLowerCase (mkProps 3 None None)
      {| codeArr := ["a"; "b"; ""]; currentIndex := 2 |} (KeyPress "Backspace") =
    ({| codeArr := ["a"; "b"; ""]; currentIndex := 2 |},
     [OnCodeChange "a"; FocusRequest 1])
  ∧ codeArr
      (fst (handle asciiToLowerCase (mkProps 3 None None)
              {| codeArr := ["a"; "b"; ""]; currentIndex := 2 |}
              (KeyPress "Backspace"))) !! 1 ≠ Some "".
Proof.
  split_and!; [reflexivity | reflexivity |].
  simpl. by intros [=].
Qed.

(** C8: in the example the [onFulfill] call is not made after the four
    [onCodeChange] calls. *)
Lemma C8_onFulfill_not_last :
  callbackTrace (effectsOfTyping1234 asciiToLowerCase) ≠
  [OnCodeChange "1"; OnCodeChange "12"; OnCodeChange "123";
   OnCodeChange "1234"; OnFulfill "1234" None].
Proof. by intros [=]. Qed.

(** ** Further properties of the controller *)

Section Controller_properties.

Variable toLowerCase : string → string.
Variable props : CodeInputProps.

Local Abbreviation len := (codeLength props).
Local Abbreviation handle := (handle toLowerCase props).
Local Abbreviation run := (run toLowerCase props).

(** Whichever branch a text change takes, the cells stored are the cells
    with the character written. *)
Lemma codeArr_handle_ChangeText s c i :
  codeArr (fst (handle s (ChangeText c i))) = array_set (codeArr s) i c.
Proof.
  destruct (decide (Z.of_nat i = (Z.of_nat len - 1)%Z)) as [Hi|Hi].
  - destruct (decide (compareWithCode props = "")) as [Ht|Ht].
    + by rewrite handle_ChangeText_last_plain.
    + destruct (_isMatchingCode toLowerCase (join (array_set (codeArr s) i c))
                  (Some (compareWithCode props)) (ignoreCase props)) eqn:Hm.
      * by rewrite handle_ChangeText_last_match.
      * by rewrite handle_ChangeText_last_mismatch.
  - by rewrite handle_ChangeText_inner.
Qed.

Lemma currentIndex_handle_ChangeText s c i :
  currentIndex (fst (handle s (ChangeText c i))) ≠ 0.
Proof.
  destruct (decide (Z.of_nat i = (Z.of_nat len - 1)%Z)) as [Hi|Hi].
  - destruct (decide (compareWithCode props = "")) as [Ht|Ht].
    + rewrite handle_ChangeText_last_plain by done. simpl. lia.
    + destruct (_isMatchingCode toLowerCase (join (array_set (codeArr s) i c))
                  (Some (compareWithCode props)) (ignoreCase props)) eqn:Hm.
      * rewrite handle_ChangeText_last_match by done. simpl. lia.
      * by rewrite handle_ChangeText_last_mismatch.
  - rewrite handle_ChangeText_inner by done. simpl. lia.
Qed.

Lemma handle_keeps_length s ev :
  length (codeArr s) = len → inRange len ev →
  length (codeArr (fst (handle s ev))) = len.
Proof.
  intros Hl Hev. destruct ev as [k|c i|key|]; simpl in Hev.
  - rewrite fst_handle_Focused.
    destruct (findIndex (codeArr s)); [case_bool_decide |]; simpl;
      by rewrite ?length_clearFrom.
  - rewrite codeArr_handle_ChangeText, length_array_set. lia.
  - by rewrite fst_handle_KeyPress.
  - rewrite handle_Clear. simpl. apply length_emptyCells.
Qed.

(** X1: from a state with [codeLength] cells, any sequence of events that
    name existing cells leaves [codeLength] cells: no handler ever drops or
    adds a cell. *)
Theorem X1_run_keeps_length (s : IState) (evs : list event) :
  length (codeArr s) = len →
  Forall (inRange len) evs →
  length (codeArr (fst (run s evs))) = len.
Proof.
  intros Hl Hevs. revert s Hl.
  induction Hevs as [|ev evs Hev _ IH]; intros s Hl; [done |].
  rewrite run_cons. cbn [fst]. apply IH. by apply handle_keeps_length.
Qed.

(** X2: a character written past the end of the cells array makes the array
    grow up to that index, the skipped slots reading as empty, and the code
    passed to [onCodeChange] is the old code followed by the character. *)
Theorem X2_entry_past_the_end (s : IState) (c : string) (i : nat) :
  length (codeArr s) ≤ i →
  prop_onCodeChange props = true →
  length (codeArr (fst (handle s (ChangeText c i)))) = S i
  ∧ (∀ j, j < length (codeArr s) →
       codeArr (fst (handle s (ChangeText c i))) !! j = codeArr s !! j)
  ∧ (∀ j, length (codeArr s) ≤ j → j < i →
       codeArr (fst (handle s (ChangeText c i))) !! j = Some "")
  ∧ codeArr (fst (handle s (ChangeText c i))) !! i = Some c
  ∧ onCodeChangeCalls (snd (handle s (ChangeText c i))) =
    [join (codeArr s) +:+ c].
Proof.
  intros Hi Hcc. rewrite codeArr_handle_ChangeText.
  split_and!.
  - rewrite length_array_set. lia.
  - intros j Hj. apply lookup_array_set_ne; lia.
  - intros j Hj1 Hj2. unfold array_set. rewrite bool_decide_eq_false_2 by lia.
    rewrite lookup_app_r by done. rewrite lookup_app_l by (rewrite length_replicate; lia).
    apply lookup_replicate_2. lia.
  - apply lookup_array_set_eq.
  - rewrite onCodeChangeCalls_ChangeText, Hcc. f_equal.
    unfold array_set. rewrite bool_decide_eq_false_2 by lia.
    rewrite !join_app. fold (emptyCells (i - length (codeArr s))).
    rewrite join_emptyCells, join_cons, join_nil. simpl.
    by rewrite append_empty_r.
Qed.

(** X4: a focus event handled twice leaves the store as handling it once
    does. *)
Theorem X4_focus_idempotent (s : IState) (k : nat) :
  fst (handle (fst (handle s (Focused k))) (Focused k)) =
  fst (handle s (Focused k)).
Proof.
  assert (∀ arr, (∀ j c, j < k → arr !! j = Some c → c ≠ "") →
            fst (handle {| codeArr := clearFrom k arr; currentIndex := k |}
                   (Focused k)) =
            {| codeArr := clearFrom k arr; currentIndex := k |}) as Hclear.
  { intros arr Hpre. rewrite handle_Focused_clear.
    - simpl. f_equal. apply clearFrom_id. intros j c Hj.
      by apply lookup_clearFrom_ge.
    - simpl. intros j c Hj. rewrite lookup_clearFrom_lt by done. by apply Hpre. }
  rewrite (fst_handle_Focused _ _ s k).
  destruct (findIndex (codeArr s)) as [e|] eqn:He.
  - case_bool_decide as Hlt.
    + rewrite fst_handle_Focused, He. by rewrite bool_decide_eq_true_2.
    + apply Hclear. apply findIndex_Some in He as [_ Hmin].
      intros j c Hj. apply Hmin. lia.
  - apply Hclear. intros j c _. by eapply findIndex_None.
Qed.

Lemma partition_clearFrom arr k :
  length arr = len → k < len →
  (∀ j c, j < k → arr !! j = Some c → c ≠ "") →
  partition len {| codeArr := clearFrom k arr; currentIndex := k |}.
Proof.
  intros Hl Hk Hpre. unfold partition. simpl. rewrite length_clearFrom.
  split_and!; [done | done | |].
  - intros j c Hj. rewrite lookup_clearFrom_lt by done. by apply Hpre.
  - intros j c Hj. by apply lookup_clearFrom_ge.
Qed.

(** X5: whatever the cells hold, a focus event on an existing cell either
    leaves a partitioned state at once, or asks the host to focus the first
    empty cell, and the focus event of that cell then leaves a partitioned
    state with the cursor on it. *)
Theorem X5_focus_settles_in_partition (s : IState) (k : nat) :
  length (codeArr s) = len →
  k < len →
  partition len (fst (handle s (Focused k)))
  ∨ ∃ e, e < k
         ∧ findIndex (codeArr s) = Some e
         ∧ handle s (Focused k) = (s, [FocusRequest e])
         ∧ partition len (fst (handle s (Focused e)))
         ∧ currentIndex (fst (handle s (Focused e))) = e.
Proof.
  intros Hl Hk.
  destruct (findIndex (codeArr s)) as [e|] eqn:He.
  - pose proof He as [_ Hmin]%findIndex_Some.
    destruct (decide (e < k)) as [Hlt|Hge].
    + right. exists e.
      assert (fst (handle s (Focused e)) =
              {| codeArr := clearFrom e (codeArr s); currentIndex := e |}) as Hfe.
      { rewrite fst_handle_Focused, He. by rewrite bool_decide_eq_false_2 by lia. }
      split_and!; [done | done | | |].
      * rewrite (handle_Focused_redirect _ _ s k e) by done.
        by rewrite bool_decide_eq_true_2 by lia.
      * rewrite Hfe. apply partition_clearFrom; [done | lia | done].
      * by rewrite Hfe.
    + left. rewrite fst_handle_Focused, He.
      rewrite bool_decide_eq_false_2 by lia.
      apply partition_clearFrom; [done | done |].
      intros j c Hj. apply Hmin. lia.
  - left. rewrite fst_handle_Focused, He.
    apply partition_clearFrom; [done | done |].
    intros j c _. by eapply findIndex_None.
Qed.

Lemma fst_handle_ChangeText_regular s c i :
  ¬ mismatches toLowerCase props s c i →
  fst (handle s (ChangeText c i)) =
  {| codeArr := array_set (codeArr s) i c; currentIndex := currentIndex s + 1 |}.
Proof.
  intros Hmis.
  destruct (decide (Z.of_nat i = (Z.of_nat len - 1)%Z)) as [Hi|Hi].
  - destruct (decide (compareWithCode props = "")) as [Ht|Ht].
    + by rewrite handle_ChangeText_last_plain.
    + rewrite handle_ChangeText_last_match; [done | done | done |].
      apply not_false_is_true. intros Hm. by apply Hmis.
  - by rewrite handle_ChangeText_inner.
Qed.

Lemma deleteOnce_eq s :
  (∀ j c, j < clampedPrev (currentIndex s) → codeArr s !! j = Some c → c ≠ "") →
  deleteOnce toLowerCase props s =
  {| codeArr := clearFrom (clampedPrev (currentIndex s)) (codeArr s);
     currentIndex := clampedPrev (currentIndex s) |}.
Proof.
  intros Hpre. unfold deleteOnce. rewrite run_cons. cbn [fst].
  by rewrite fst_handle_KeyPress, run_singleton, handle_Focused_clear.
Qed.

Lemma invariant_prefix s :
  partition len s ∨ completed len s →
  length (codeArr s) = len ∧ currentIndex s ≤ len
  ∧ (∀ j c, j < currentIndex s → codeArr s !! j = Some c → c ≠ "").
Proof.
  intros [(Hl & Hi & Hp & _)|(Hl & Hi & Hp)].
  - split_and!; [done | lia | done].
  - split_and!; [done | lia |]. intros j c _. apply Hp.
Qed.

(** X3: in a partitioned state, entering a character in the cell the cursor
    is on (any text, a mismatching completion aside) and then deleting it,
    with a backspace and the focus event that answers it, gives back the
    state one started from. *)
Theorem X3_enter_then_delete_restores (s : IState) (c : string) :
  partition len s →
  ¬ mismatches toLowerCase props s c (currentIndex s) →
  deleteOnce toLowerCase props
    (fst (handle s (ChangeText c (currentIndex s)))) = s.
Proof.
  intros Hpart Hmis. pose proof Hpart as (Hl & Hi & Hpre & Hsuf).
  rewrite fst_handle_ChangeText_regular by done.
  rewrite deleteOnce_eq; simpl.
  - replace (clampedPrev (currentIndex s + 1)) with (currentIndex s)
      by (unfold clampedPrev; lia).
    destruct s as [arr idx]. simpl in *. f_equal.
    apply list_eq. intros j. rewrite lookup_clearFrom.
    destruct (decide (j < idx)) as [Hj|Hj].
    + rewrite bool_decide_eq_false_2 by lia.
      rewrite lookup_array_set_ne by lia. by destruct (arr !! j).
    + rewrite bool_decide_eq_true_2 by lia.
      destruct (arr !! j) as [d|] eqn:Hd.
      * assert (is_Some (array_set arr idx c !! j)) as [d' ->].
        { apply lookup_lt_is_Some. rewrite length_array_set.
          apply lookup_lt_Some in Hd. lia. }
        simpl. f_equal. symmetry. eapply Hsuf; [| done]. lia.
      * rewrite (lookup_ge_None_2 (array_set arr idx c)); [done |].
        apply lookup_ge_None_1 in Hd. rewrite length_array_set. lia.
  - intros j d Hj Hd. unfold clampedPrev in Hj.
    rewrite lookup_array_set_ne in Hd by lia. eapply Hpre; [| done]. lia.
Qed.

(** X12: from a state with a filled prefix (or a complete code), deleting
    as many times as the focus index says, each backspace followed by the
    focus event that answers it, empties the cells and brings the cursor
    back to cell 0: the state is the initial one. *)
Theorem X12_deleting_back_to_start (s : IState) :
  partition len s ∨ completed len s →
  Nat.iter (currentIndex s) (deleteOnce toLowerCase props) s = initialState props.
Proof.
  remember (currentIndex s) as n eqn:Hn. revert s Hn.
  induction n as [|n IH]; intros s Hn Hinv.
  - simpl. destruct Hinv as [(Hl & _ & _ & Hsuf)|(Hl & Hi & _)].
    + destruct s as [arr idx]. simpl in *. subst idx.
      unfold initialState. f_equal. apply list_eq. intros j.
      unfold emptyCells. rewrite <- Hl.
      destruct (arr !! j) as [d|] eqn:Hd.
      * rewrite (Hsuf j d) by (done || lia). symmetry.
        apply lookup_replicate_2. by eapply lookup_lt_Some.
      * symmetry. apply lookup_ge_None_2. rewrite length_replicate.
        by apply lookup_ge_None_1.
    + destruct s as [arr idx]. simpl in *. subst idx.
      unfold initialState. rewrite <- Hi. f_equal.
      symmetry in Hi. rewrite Hi in Hl. by apply nil_length_inv in Hl as ->.
  - rewrite Nat.iter_succ_r.
    destruct (invariant_prefix s Hinv) as (Hl & Hi & Hpre).
    rewrite deleteOnce_eq
      by (intros j c Hj; apply Hpre; unfold clampedPrev in Hj; lia).
    rewrite <- Hn.
    replace (clampedPrev (S n)) with n by (unfold clampedPrev; lia).
    apply IH; [done |]. left.
    apply partition_clearFrom; [done | lia |].
    intros j c Hj. apply Hpre. lia.
Qed.

(** X11: in every state the component can be in after any sequence of
    events from the initial state, whatever their cells and texts, a focus
    index of 0 means that all cells are empty. *)
Theorem X11_cursor_at_0_means_empty (evs : list event) (i : nat) (c : string) :
  currentIndex (fst (run (initialState props) evs)) = 0 →
  codeArr (fst (run (initialState props) evs)) !! i = Some c →
  c = "".
Proof.
  assert (∀ s, (currentIndex s = 0 → ∀ j d, codeArr s !! j = Some d → d = "") →
            currentIndex (fst (run s evs)) = 0 →
            ∀ j d, codeArr (fst (run s evs)) !! j = Some d → d = "") as Hgen.
  { induction evs as [|ev evs IH]; intros s Hs; [done |].
    rewrite run_cons. cbn [fst]. apply IH.
    destruct ev as [k|text k|key|].
    - rewrite fst_handle_Focused.
      destruct (findIndex (codeArr s)); [case_bool_decide |]; try done;
        simpl; intros -> j d Hd; by eapply lookup_clearFrom_ge; [| done]; lia.
    - intros H0. by apply currentIndex_handle_ChangeText in H0.
    - by rewrite fst_handle_KeyPress.
    - rewrite handle_Clear. simpl. intros _ j d. apply lookup_emptyCells. }
  intros H0 Hc. eapply Hgen; [| done | done].
  intros _ j d. apply lookup_emptyCells.
Qed.

Lemma onFulfillCalls_app e1 e2 :
  onFulfillCalls (e1 ++ e2) = onFulfillCalls e1 ++ onFulfillCalls e2.
Proof. apply omap_app. Qed.

Lemma hostRequests_app e1 e2 :
  hostRequests (e1 ++ e2) = hostRequests e1 ++ hostRequests e2.
Proof. apply omap_app. Qed.

Ltac solve_blur :=
  let k := fresh "k" in
  intros k; rewrite ?elem_of_cons, ?elem_of_nil;
  intuition (try discriminate); simplify_eq; done.

(** One event: [onFulfill] is called once if the event is a text change in
    the last cell and the callback is supplied, and not at all otherwise;
    a blur is requested by such an event only. *)
Lemma onFulfillCalls_handle s ev :
  length (onFulfillCalls (snd (handle s ev))) =
    (if prop_onFulfill props && isLastCellEntry len ev then 1 else 0)
  ∧ (∀ k, BlurRequest k ∈ snd (handle s ev) →
          isLastCellEntry len ev = true ∧ k = currentIndex s).
Proof.
  destruct ev as [k|c i|key|].
  - rewrite andb_false_r. unfold_handler.
    destruct (findIndex (codeArr s)); repeat case_bool_decide; simpl;
      (split; [done |]); solve_blur.
  - simpl isLastCellEntry.
    destruct (decide (Z.of_nat i = (Z.of_nat len - 1)%Z)) as [Hi|Hi].
    + rewrite (bool_decide_eq_true_2 _ Hi), andb_true_r.
      destruct (decide (compareWithCode props = "")) as [Ht|Ht];
        [rewrite handle_ChangeText_last_plain by done
        |destruct (_isMatchingCode toLowerCase (join (array_set (codeArr s) i c))
                     (Some (compareWithCode props)) (ignoreCase props)) eqn:Hm;
         [rewrite handle_ChangeText_last_match by done
         |rewrite handle_ChangeText_last_mismatch by done]];
        simpl; destruct (prop_onFulfill props), (prop_onCodeChange props);
        case_bool_decide; simpl; (split; [done |]); solve_blur.
    + rewrite (bool_decide_eq_false_2 _ Hi), andb_false_r.
      rewrite handle_ChangeText_inner by done. simpl.
      destruct (prop_onCodeChange props); case_bool_decide; simpl;
        (split; [done |]); solve_blur.
  - rewrite andb_false_r.
    destruct (decide (key = "Backspace")) as [->|Hk].
    + rewrite handle_Backspace. simpl.
      destruct (prop_onCodeChange props); case_bool_decide; simpl;
        (split; [done |]); solve_blur.
    + rewrite handle_other_key by done. simpl. split; [done |].
      intros k'. by rewrite elem_of_nil.
  - rewrite andb_false_r, handle_Clear. simpl.
    case_bool_decide; simpl; (split; [done |]); solve_blur.
Qed.

(** X6: over any sequence of events from any state, [onFulfill] is called
    exactly once for each text change in the last cell when the callback is
    supplied, and never otherwise: no focus event, key press, [clear()] or
    entry in another cell calls it. *)
Theorem X6_onFulfill_once_per_last_cell_entry (s : IState) (evs : list event) :
  length (onFulfillCalls (snd (run s evs))) =
  if prop_onFulfill props
  then length (filter (λ ev, isLastCellEntry len ev = true) evs)
  else 0.
Proof.
  revert s. induction evs as [|ev evs IH]; intros s.
  - simpl. by destruct (prop_onFulfill props).
  - rewrite run_cons. cbn [snd]. rewrite onFulfillCalls_app, length_app, IH.
    rewrite (proj1 (onFulfillCalls_handle s ev)), filter_cons.
    destruct (prop_onFulfill props); [| done]. simpl.
    destruct (isLastCellEntry len ev).
    + by rewrite decide_True.
    + by rewrite decide_False.
Qed.

(** One event handled with other callbacks supplied: the same store, the
    same requests to the host. *)
Lemma handle_withCallbacks s ev f c :
  fst (handleWith toLowerCase (withCallbacks props f c) s ev) =
    fst (handle s ev)
  ∧ hostRequests (snd (handleWith toLowerCase
                         (withCallbacks props f c) s ev)) =
    hostRequests (snd (handle s ev)).
Proof.
  unfold handleWith.
  set (p' := withCallbacks props f c).
  change (prop_onFulfill p') with f.
  destruct ev as [k|text i|key|].
  - unfold_handler. change (codeLength p') with len.
    destruct (findIndex (codeArr s)); repeat case_bool_decide; done.
  - destruct (decide (Z.of_nat i = (Z.of_nat len - 1)%Z)) as [Hi|Hi].
    + destruct (decide (compareWithCode props = "")) as [Ht|Ht].
      * rewrite (handle_ChangeText_last_plain toLowerCase props) by done.
        rewrite (handle_ChangeText_last_plain toLowerCase p') by done.
        change (codeLength p') with len. simpl.
        destruct f, c, (prop_onFulfill props), (prop_onCodeChange props);
          case_bool_decide; done.
      * destruct (_isMatchingCode toLowerCase
                    (join (array_set (codeArr s) i text))
                    (Some (compareWithCode props)) (ignoreCase props)) eqn:Hm.
        -- rewrite (handle_ChangeText_last_match toLowerCase props) by done.
           rewrite (handle_ChangeText_last_match toLowerCase p') by done.
           change (codeLength p') with len. simpl.
           destruct f, c, (prop_onFulfill props), (prop_onCodeChange props);
             case_bool_decide; done.
        -- rewrite (handle_ChangeText_last_mismatch toLowerCase props) by done.
           rewrite (handle_ChangeText_last_mismatch toLowerCase p') by done.
           change (codeLength p') with len. simpl.
           destruct f, c, (prop_onFulfill props), (prop_onCodeChange props);
             case_bool_decide; done.
    + rewrite (handle_ChangeText_inner toLowerCase props) by done.
      rewrite (handle_ChangeText_inner toLowerCase p') by done.
      change (codeLength p') with len. simpl.
      destruct c, (prop_onCodeChange props); case_bool_decide; done.
  - destruct (decide (key = "Backspace")) as [->|Hk].
    + rewrite (handle_Backspace toLowerCase props).
      rewrite (handle_Backspace toLowerCase p').
      change (codeLength p') with len. simpl.
      destruct c, (prop_onCodeChange props); case_bool_decide; done.
    + by rewrite !handle_other_key.
  - by rewrite !handle_Clear.
Qed.

(** X7: supplying or leaving out the two callbacks changes neither the
    states the component goes through nor the focus and blur requests it
    makes: over any sequence of events, the final store and the requests to
    the host are the same. *)
Theorem X7_callbacks_do_not_steer (s : IState) (evs : list event)
    (fulfill change : bool) :
  fst (runWith toLowerCase (withCallbacks props fulfill change) s evs) =
    fst (run s evs)
  ∧ hostRequests
      (snd (runWith toLowerCase (withCallbacks props fulfill change) s evs)) =
    hostRequests (snd (run s evs)).
Proof.
  unfold runWith. revert s. induction evs as [|ev evs IH]; intros s; [done |].
  rewrite (run_cons toLowerCase props s ev evs).
  rewrite (run_cons toLowerCase (withCallbacks props fulfill change) s ev evs).
  destruct (handle_withCallbacks s ev fulfill change) as [Hst Hreq].
  unfold handleWith in Hst, Hreq. cbn [fst snd].
  rewrite Hst, !hostRequests_app, Hreq.
  destruct (IH (fst (handle s ev))) as [IH1 IH2]. by rewrite IH1, IH2.
Qed.

(** X8: a full code that differs from the target, followed by the focus
    event of cell 0 that the mismatch asks the host for, leaves the
    component as freshly mounted: whatever events come next are handled as
    from the initial state.  The failed attempt itself calls [onFulfill]
    once, with the code typed and [false]. *)
Theorem X8_failed_attempt_then_focus_is_fresh
    (wrong : list string) (evs : list event) :
  1 ≤ len →
  length wrong = len →
  compareWithCode props ≠ "" →
  _isMatchingCode toLowerCase (join wrong)
    (Some (compareWithCode props)) (ignoreCase props) = false →
  fst (run (initialState props) (typing 0 wrong ++ Focused 0 :: evs)) =
    fst (run (initialState props) evs)
  ∧ snd (run (initialState props) (typing 0 wrong ++ Focused 0 :: evs)) =
    snd (run (initialState props) (typing 0 wrong))
    ++ snd (run (initialState props) evs)
  ∧ onFulfillCalls (snd (run (initialState props) (typing 0 wrong))) =
    (if prop_onFulfill props then [(join wrong, Some false)] else []).
Proof.
  intros Hpos Hlen Ht Hm.
  destruct (snoc_inv wrong) as (cs & c & ->);
    [intros ->; simpl in Hlen; lia |].
  rewrite length_app in Hlen. simpl in Hlen.
  assert (array_set (cs ++ emptyCells 1) (length cs) c = cs ++ [c]) as Hset
    by (rewrite (array_set_prefix cs 0 c); apply app_nil_r).
  assert (run (initialState props) (typing 0 (cs ++ [c])) =
          ({| codeArr := cs ++ [c]; currentIndex := 1 |},
           snd (run (initialState props) (typing 0 cs))
           ++ (if prop_onFulfill props
               then [OnFulfill (join (cs ++ [c])) (Some false)] else [])
           ++ [FocusRequest 0] ++ [BlurRequest (length cs)]
           ++ (if prop_onCodeChange props
               then [OnCodeChange (join (cs ++ [c]))] else []))) as Hrun.
  { rewrite run_typing_split by done.
    rewrite handle_ChangeText_last_mismatch;
      [| lia | done | simpl codeArr; by rewrite Hset].
    simpl codeArr. simpl currentIndex. rewrite Hset. cbn [fst snd].
    by rewrite bool_decide_eq_true_2 by lia. }
  rewrite run_app, Hrun, run_cons, handle_Focused_0. cbn [fst snd codeArr].
  replace {| codeArr := emptyCells (length (cs ++ [c])); currentIndex := 0 |}
    with (initialState props)
    by (unfold initialState; rewrite length_app; simpl; do 2 f_equal; lia).
  destruct (run (initialState props) evs) as [s2 e2]. cbn [fst snd].
  split_and!; [done | done |].
  destruct (run_typing_inner toLowerCase props cs [] len) as (_ & Hful & _);
    [done | lia |].
  change (length []) with 0 in Hful.
  change ({| codeArr := [] ++ emptyCells len; currentIndex := 0 |})
    with (initialState props) in Hful.
  rewrite !onFulfillCalls_app, Hful. simpl.
  by destruct (prop_onFulfill props), (prop_onCodeChange props).
Qed.

(** X10: the props check reports nothing exactly when the comparison
    target is empty or as long as the code, and the input position is one of
    center, left, right and full-width; it never reports more than two
    problems. *)
Theorem X10_checkProps_silent_iff :
  (checkProps props = [] ↔
   (compareWithCode props = ""
    ∨ String.length (compareWithCode props) = len)
   ∧ inputPosition props ∈ ["center"; "left"; "right"; "full-width"])
  ∧ length (checkProps props) ≤ 2.
Proof.
  unfold checkProps. split.
  - destruct (truthy (compareWithCode props)) eqn:Ht.
    + apply truthy_true in Ht. simpl.
      repeat case_bool_decide; simpl; split;
        try done; try (intros [[?|?] ?]; done); intros _; auto.
    + apply truthy_false in Ht. simpl.
      case_bool_decide; simpl; split;
        try done; try (intros [_ ?]; done); intros _; auto.
  - destruct (truthy _ && _), (bool_decide _); simpl; lia.
Qed.

End Controller_properties.

Section Matching.

Variable toLowerCase : string → string.

(** X9: code matching, with or without the case flag, accepts a code
    compared with itself and does not depend on the order of its two
    arguments; what the exact comparison accepts, the case-insensitive one
    accepts as well; a left-out target is the empty target, a left-out flag
    the exact comparison. *)
Theorem X9_matching_relation (a b : string) (flag : option bool) :
  _isMatchingCode toLowerCase a (Some a) flag = true
  ∧ _isMatchingCode toLowerCase a (Some b) flag =
    _isMatchingCode toLowerCase b (Some a) flag
  ∧ (_isMatchingCode toLowerCase a (Some b) (Some false) = true →
     _isMatchingCode toLowerCase a (Some b) flag = true)
  ∧ _isMatchingCode toLowerCase a None flag =
    _isMatchingCode toLowerCase a (Some "") flag
  ∧ _isMatchingCode toLowerCase a (Some b) None =
    _isMatchingCode toLowerCase a (Some b) (Some false).
Proof.
  unfold _isMatchingCode. simpl. split_and!.
  - destruct (default false flag); by apply bool_decide_eq_true_2.
  - destruct (default false flag); apply bool_decide_ext; split; congruence.
  - intros ->%bool_decide_eq_true_1.
    destruct (default false flag); by apply bool_decide_eq_true_2.
  - done.
  - done.
Qed.

End Matching.

(** ** Properties of the presentation *)

Section Presentation_properties.

Variable number : Type.
Variable lit : Z → number.
Variable half : number → number.
Variable toLowerCase : string → string.
Variable props : CodeInputProps.
Variable sprops : StyleProps number.

Local Abbreviation len := (codeLength props).
Local Abbreviation handle := (handle toLowerCase props).
Local Abbreviation getClassStyle := (_getClassStyle number lit half props sprops).
Local Abbreviation render := (renderContent number lit half props sprops).
Local Abbreviation inputSpace := (INPUT_SPACE_DEFAULT number lit half sprops).

Lemma lookup_renderContent s i :
  render s !! i =
  if decide (i < len) then
    Some {| view_index := i;
            view_active := bool_decide (currentIndex s = i);
            view_classStyle :=
              getClassStyle (className number sprops)
                (bool_decide (currentIndex s = i));
            view_autoFocus := autoFocus number sprops && bool_decide (i = 0);
            view_value := default "" (codeArr s !! i) |}
  else None.
Proof.
  unfold renderContent, codeInputs. rewrite list_lookup_fmap.
  case_decide as Hi.
  - rewrite lookup_seq_lt by done. simpl. do 2 f_equal.
    destruct (codeArr s !! i) as [c|]; [simpl | done].
    destruct (truthy c) eqn:Hc; [done |]. by apply truthy_false in Hc.
  - by rewrite lookup_seq_ge by lia.
Qed.

Lemma values_renderContent s :
  length (codeArr s) = len → view_value <$> render s = codeArr s.
Proof.
  intros Hl. apply list_eq. intros i.
  rewrite list_lookup_fmap, lookup_renderContent. case_decide as Hi; simpl.
  - destruct (lookup_lt_is_Some_2 (codeArr s) i) as [c Hc]; [lia |].
    by rewrite Hc.
  - symmetry. apply lookup_ge_None_2. lia.
Qed.

(** X14: as long as the store holds [codeLength] cells, the values shown
    by the rendered cells are, cell by cell, the stored cells; there are
    [codeLength] rendered cells whatever the store holds. *)
Theorem X14_cells_show_the_store (s : IState) :
  length (codeArr s) = len →
  view_value <$> render s = codeArr s
  ∧ length (render s) = len
  ∧ view_index <$> render s = seq 0 len.
Proof.
  intros Hl. split_and!.
  - by apply values_renderContent.
  - unfold renderContent, codeInputs. by rewrite length_fmap, length_seq.
  - unfold renderContent, codeInputs. rewrite <- list_fmap_compose.
    apply list_fmap_id.
Qed.

(** X13: after a text change in an existing cell, the code passed to
    [onCodeChange] is the text the cells show once the store is rendered,
    also when the code is complete and differs from the target. *)
Theorem X13_reported_code_is_shown (s : IState) (c : string) (i : nat) :
  length (codeArr s) = len →
  i < len →
  prop_onCodeChange props = true →
  onCodeChangeCalls (snd (handle s (ChangeText c i))) =
  [join (view_value <$> render (fst (handle s (ChangeText c i))))].
Proof.
  intros Hl Hi Hcc. rewrite onCodeChangeCalls_ChangeText, Hcc.
  rewrite values_renderContent.
  - by rewrite codeArr_handle_ChangeText.
  - rewrite codeArr_handle_ChangeText, length_array_set. lia.
Qed.

(** X15: in a state with a filled prefix and an empty suffix, or with the
    code complete, a rendered cell is drawn active exactly when it is the
    first cell that shows nothing, so no cell is active once the code is
    complete; and a cell gets [autoFocus] exactly when it is cell 0 and the
    [autoFocus] prop is not switched off. *)
Theorem X15_active_cell_is_first_empty (s : IState) (i : nat)
    (v : CellView number) :
  partition len s ∨ completed len s →
  render s !! i = Some v →
  (view_active v = true ↔ findIndex (view_value <$> render s) = Some i)
  ∧ (view_autoFocus v = true ↔ autoFocus number sprops = true ∧ i = 0).
Proof.
  intros Hinv Hv. rewrite lookup_renderContent in Hv.
  case_decide as Hi; [| done]. injection Hv as <-. simpl.
  rewrite values_renderContent
    by (destruct Hinv as [(? & _)|(? & _)]; done).
  split.
  - rewrite bool_decide_eq_true, findIndex_Some.
    destruct Hinv as [(Hl & Hidx & Hpre & Hsuf)|(Hl & Hidx & Hfull)].
    + split.
      * intros <-. split; [| done].
        destruct (lookup_lt_is_Some_2 (codeArr s) (currentIndex s)) as [c Hc];
          [lia |].
        by rewrite Hc, (Hsuf _ c (le_n _) Hc).
      * intros [He Hmin].
        destruct (Nat.lt_trichotomy (currentIndex s) i) as [Hlt|[Heq|Hgt]];
          [| done |].
        -- destruct (lookup_lt_is_Some_2 (codeArr s) (currentIndex s))
             as [c Hc]; [lia |].
           exfalso. apply (Hmin _ c Hlt Hc). by eapply Hsuf.
        -- exfalso. by apply (Hpre i "" Hgt He).
    + split; [lia |]. intros [He _]. exfalso. by apply (Hfull i "" He).
  - rewrite andb_true_iff, bool_decide_eq_true. done.
Qed.

(** X16: every class style has the active colour as its text colour; the
    [active] flag changes nothing but [borderColor], which is the active
    colour for the active cell and the inactive colour otherwise; the clear
    class has no [borderColor] at all, so it looks the same active or not. *)
Theorem X16_active_only_changes_borderColor (type : ClassName) (active : bool) :
  getClassStyle type active !! "color" = Some (StyleStr (activeColor number sprops))
  ∧ delete "borderColor" (getClassStyle type true) =
    delete "borderColor" (getClassStyle type false)
  ∧ getClassStyle type active !! "borderColor" =
    match type with
    | ClearBorder => None
    | _ => Some (StyleStr (if active then activeColor number sprops
                           else inactiveColor number sprops))
    end
  ∧ getClassStyle ClearBorder true = getClassStyle ClearBorder false.
Proof.
  assert (classStyle number lit half props sprops !! "borderColor" = None) as Hb.
  { unfold classStyle, INPUT_SPACE_DEFAULT.
    rewrite lookup_insert_ne by done.
    repeat case_decide; simpl;
      rewrite ?lookup_insert_ne, ?lookup_singleton_ne, ?lookup_empty by done;
      done. }
  split_and!.
  - unfold _getClassStyle, border.
    destruct type; rewrite ?lookup_insert_ne by done;
      unfold classStyle; by rewrite lookup_insert_eq.
  - unfold _getClassStyle, border. apply map_eq. intros k.
    rewrite !lookup_delete. case_decide as Hk; [done |].
    destruct type; rewrite !lookup_insert; repeat case_decide; congruence.
  - unfold _getClassStyle, border.
    destruct type;
      rewrite ?(lookup_insert_ne _ "borderRadius" "borderColor") by done;
      rewrite ?lookup_insert_eq; try done.
    by rewrite lookup_insert_ne.
  - done.
Qed.

(** X17: the margins table of the class styles knows exactly the input
    positions the props check accepts: the check reports an invalid input
    position if and only if the cells get no margins.  The value "full",
    which the message of the check names, is not among them. *)
Theorem X17_position_check_matches_margins :
  (ConsoleError "Invalid input position. Must be in: center, left, right, full"
     ∈ checkProps props
   ↔ inputSpace (inputPosition props) = None)
  ∧ inputSpace "full" = None.
Proof.
  split; [| done].
  unfold checkProps. rewrite elem_of_app.
  assert (inputPosition props ∈ ["center"; "left"; "right"; "full-width"]
          ↔ inputSpace (inputPosition props) ≠ None) as Hin.
  { rewrite !elem_of_cons, elem_of_nil. unfold INPUT_SPACE_DEFAULT.
    repeat case_decide; intuition congruence. }
  split.
  - intros [Hl|Hr].
    + destruct (truthy _ && _); [| by apply elem_of_nil in Hl].
      by apply list_elem_of_singleton in Hl.
    + case_bool_decide as Hp; [by apply elem_of_nil in Hr |].
      match goal with |- ?x = None => destruct x eqn:Hs end; [| done].
      exfalso. by apply Hp, Hin.
  - intros Hs. right. rewrite bool_decide_eq_false_2.
    + apply list_elem_of_here.
    + intros Hp. by apply Hin in Hp.
Qed.

End Presentation_properties.

(** ** The further properties at concrete inputs *)

Lemma partition_example_ab :
  partition 3 {| codeArr := ["a"; "b"; ""]; currentIndex := 2 |}.
Proof.
  unfold partition. simpl. split_and!; [done | lia | |].
  - intros i c Hi Hc. destruct i as [|[|i]]; [| | lia];
      simpl in Hc; by injection Hc as <-.
  - intros i c Hi Hc. destruct i as [|[|[|i]]]; [lia | lia | |];
      simpl in Hc; [by injection Hc as <- | done].
Defined.

Lemma partition_example_a :
  partition 3 {| codeArr := ["a"; ""; ""]; currentIndex := 1 |}.
Proof.
  unfold partition. simpl. split_and!; [done | lia | |].
  - intros i c Hi Hc. destruct i as [|i]; [| lia].
    simpl in Hc. by injection Hc as <-.
  - intros i c Hi Hc. destruct i as [|[|[|i]]]; [lia | | |];
      simpl in Hc; [by injection Hc as <- | by injection Hc as <- | done].
Defined.

Lemma X1_run_keeps_length_witness :
  length (codeArr (initialState (mkProps 3 None None))) =
    codeLength (mkProps 3 None None)
  ∧ Forall (inRange (codeLength (mkProps 3 None None)))
      [ChangeText "a" 0; Focused 2; KeyPress "Backspace"; ChangeText "b" 2]
  ∧ length (codeArr (fst (run asciiToLowerCase (mkProps 3 None None)
                            (initialState (mkProps 3 None None))
                            [ChangeText "a" 0; Focused 2; KeyPress "Backspace";
                             ChangeText "b" 2]))) =
    codeLength (mkProps 3 None None).
Proof.
  assert (Forall (inRange (codeLength (mkProps 3 None None)))
            [ChangeText "a" 0; Focused 2; KeyPress "Backspace";
             ChangeText "b" 2]) as H2
    by (repeat constructor; cbv; lia).
  split_and!; [reflexivity | exact H2 |].
  exact (X1_run_keeps_length asciiToLowerCase (mkProps 3 None None)
           (initialState (mkProps 3 None None)) _ eq_refl H2).
Defined.

Lemma X2_entry_past_the_end_witness :
  length ["a"; "b"] ≤ 3
  ∧ prop_onCodeChange (mkProps 5 None None) = true
  ∧ onCodeChangeCalls
      (snd (handle asciiToLowerCase (mkProps 5 None None)
              {| codeArr := ["a"; "b"]; currentIndex := 2 |}
              (ChangeText "x" 3))) = ["abx"]
  ∧ length (codeArr (fst (handle asciiToLowerCase (mkProps 5 None None)
                            {| codeArr := ["a"; "b"]; currentIndex := 2 |}
                            (ChangeText "x" 3)))) = 4.
Proof.
  assert (length ["a"; "b"] ≤ 3) as H1 by (simpl; lia).
  pose proof (X2_entry_past_the_end asciiToLowerCase (mkProps 5 None None)
                {| codeArr := ["a"; "b"]; currentIndex := 2 |} "x" 3
                H1 eq_refl) as (Hlen & _ & _ & _ & Hcc).
  split_and!; [exact H1 | reflexivity | exact Hcc | exact Hlen].
Defined.

Lemma X3_enter_then_delete_restores_witness :
  partition (codeLength (mkProps 3 None None))
    {| codeArr := ["a"; ""; ""]; currentIndex := 1 |}
  ∧ ¬ mismatches asciiToLowerCase (mkProps 3 None None)
        {| codeArr := ["a"; ""; ""]; currentIndex := 1 |} "b" 1
  ∧ deleteOnce asciiToLowerCase (mkProps 3 None None)
      (fst (handle asciiToLowerCase (mkProps 3 None None)
              {| codeArr := ["a"; ""; ""]; currentIndex := 1 |}
              (ChangeText "b" 1))) =
    {| codeArr := ["a"; ""; ""]; currentIndex := 1 |}.
Proof.
  assert (¬ mismatches asciiToLowerCase (mkProps 3 None None)
            {| codeArr := ["a"; ""; ""]; currentIndex := 1 |} "b" 1) as H2
    by (intros (Hlast & _); cbv in Hlast; discriminate).
  split_and!; [exact partition_example_a | exact H2 |].
  exact (X3_enter_then_delete_restores asciiToLowerCase (mkProps 3 None None)
           {| codeArr := ["a"; ""; ""]; currentIndex := 1 |} "b"
           partition_example_a H2).
Defined.

Lemma X5_focus_settles_in_partition_witness :
  length ["a"; ""; ""] = codeLength (mkProps 3 None None)
  ∧ 2 < codeLength (mkProps 3 None None)
  ∧ (partition (codeLength (mkProps 3 None None))
       (fst (handle asciiToLowerCase (mkProps 3 None None)
               {| codeArr := ["a"; ""; ""]; currentIndex := 1 |} (Focused 2)))
     ∨ ∃ e, e < 2
            ∧ findIndex ["a"; ""; ""] = Some e
            ∧ handle asciiToLowerCase (mkProps 3 None None)
                {| codeArr := ["a"; ""; ""]; currentIndex := 1 |} (Focused 2) =
              ({| codeArr := ["a"; ""; ""]; currentIndex := 1 |},
               [FocusRequest e])
            ∧ partition (codeLength (mkProps 3 None None))
                (fst (handle asciiToLowerCase (mkProps 3 None None)
                        {| codeArr := ["a"; ""; ""]; currentIndex := 1 |}
                        (Focused e)))
            ∧ currentIndex
                (fst (handle asciiToLowerCase (mkProps 3 None None)
                        {| codeArr := ["a"; ""; ""]; currentIndex := 1 |}
                        (Focused e))) = e).
Proof.
  assert (2 < codeLength (mkProps 3 None None)) as H2 by (cbv; lia).
  split_and!; [reflexivity | exact H2 |].
  exact (X5_focus_settles_in_partition asciiToLowerCase (mkProps 3 None None)
           {| codeArr := ["a"; ""; ""]; currentIndex := 1 |} 2 eq_refl H2).
Defined.

Lemma X8_failed_attempt_then_focus_is_fresh_witness :
  1 ≤ codeLength (mkProps 2 (Some "ab") None)
  ∧ length ["a"; "x"] = codeLength (mkProps 2 (Some "ab") None)
  ∧ compareWithCode (mkProps 2 (Some "ab") None) ≠ ""
  ∧ _isMatchingCode asciiToLowerCase (join ["a"; "x"])
      (Some (compareWithCode (mkProps 2 (Some "ab") None)))
      (ignoreCase (mkProps 2 (Some "ab") None)) = false
  ∧ fst (run asciiToLowerCase (mkProps 2 (Some "ab") None)
           (initialState (mkProps 2 (Some "ab") None))
           (typing 0 ["a"; "x"] ++ Focused 0 :: typing 0 ["a"; "b"])) =
    fst (run asciiToLowerCase (mkProps 2 (Some "ab") None)
           (initialState (mkProps 2 (Some "ab") None))
           (typing 0 ["a"; "b"])).
Proof.
  assert (1 ≤ codeLength (mkProps 2 (Some "ab") None)) as H1 by (cbv; lia).
  assert (compareWithCode (mkProps 2 (Some "ab") None) ≠ "") as H3 by done.
  split_and!; [exact H1 | reflexivity | exact H3 | reflexivity |].
  exact (proj1 (X8_failed_attempt_then_focus_is_fresh asciiToLowerCase
                  (mkProps 2 (Some "ab") None) ["a"; "x"]
                  (typing 0 ["a"; "b"]) H1 eq_refl H3 eq_refl)).
Defined.

Lemma X9_matching_relation_witness :
  _isMatchingCode asciiToLowerCase "Ab" (Some "Ab") (Some false) = true
  ∧ _isMatchingCode asciiToLowerCase "Ab" (Some "Ab") (Some true) = true
  ∧ _isMatchingCode asciiToLowerCase "Ab" (Some "aB") (Some true) =
    _isMatchingCode asciiToLowerCase "aB" (Some "Ab") (Some true).
Proof.
  pose proof (X9_matching_relation asciiToLowerCase "Ab" "Ab" (Some true))
    as (_ & _ & Himp & _).
  pose proof (X9_matching_relation asciiToLowerCase "Ab" "aB" (Some true))
    as (_ & Hsym & _).
  split_and!; [reflexivity | exact (Himp eq_refl) | exact Hsym].
Defined.

Lemma X11_cursor_at_0_means_empty_witness :
  currentIndex (fst (run asciiToLowerCase (mkProps 3 None None)
                       (initialState (mkProps 3 None None))
                       [ChangeText "a" 0; ChangeText "b" 1; Focused 0])) = 0
  ∧ codeArr (fst (run asciiToLowerCase (mkProps 3 None None)
                    (initialState (mkProps 3 None None))
                    [ChangeText "a" 0; ChangeText "b" 1; Focused 0])) !! 1 =
    Some ""
  ∧ "" = "".
Proof.
  split_and!; [reflexivity | reflexivity |].
  exact (X11_cursor_at_0_means_empty asciiToLowerCase (mkProps 3 None None)
           [ChangeText "a" 0; ChangeText "b" 1; Focused 0] 1 ""
           eq_refl eq_refl).
Defined.

Lemma X12_deleting_back_to_start_witness :
  (partition (codeLength (mkProps 3 None None))
     {| codeArr := ["a"; "b"; ""]; currentIndex := 2 |}
   ∨ completed (codeLength (mkProps 3 None None))
       {| codeArr := ["a"; "b"; ""]; currentIndex := 2 |})
  ∧ Nat.iter 2 (deleteOnce asciiToLowerCase (mkProps 3 None None))
      {| codeArr := ["a"; "b"; ""]; currentIndex := 2 |} =
    initialState (mkProps 3 None None).
Proof.
  split; [left; exact partition_example_ab |].
  exact (X12_deleting_back_to_start asciiToLowerCase (mkProps 3 None None)
           {| codeArr := ["a"; "b"; ""]; currentIndex := 2 |}
           (or_introl partition_example_ab)).
Defined.

Lemma X13_reported_code_is_shown_witness :
  length ["a"; ""; ""] = codeLength (mkProps 3 None None)
  ∧ 1 < codeLength (mkProps 3 None None)
  ∧ prop_onCodeChange (mkProps 3 None None) = true
  ∧ onCodeChangeCalls
      (snd (handle asciiToLowerCase (mkProps 3 None None)
              {| codeArr := ["a"; ""; ""]; currentIndex := 1 |}
              (ChangeText "b" 1))) =
    [join (view_value <$>
             renderContent Z id (λ z, (z / 2)%Z) (mkProps 3 None None)
               (noStyleProps Z)
               (fst (handle asciiToLowerCase (mkProps 3 None None)
                       {| codeArr := ["a"; ""; ""]; currentIndex := 1 |}
                       (ChangeText "b" 1))))].
Proof.
  assert (1 < codeLength (mkProps 3 None None)) as H2 by (cbv; lia).
  split_and!; [reflexivity | exact H2 | reflexivity |].
  exact (X13_reported_code_is_shown Z id (λ z, (z / 2)%Z) asciiToLowerCase
           (mkProps 3 None None) (noStyleProps Z)
           {| codeArr := ["a"; ""; ""]; currentIndex := 1 |} "b" 1
           eq_refl H2 eq_refl).
Defined.

Lemma X14_cells_show_the_store_witness :
  length ["a"; "b"; ""] = codeLength (mkProps 3 None None)
  ∧ view_value <$>
      renderContent Z id (λ z, (z / 2)%Z) (mkProps 3 None None)
        (noStyleProps Z) {| codeArr := ["a"; "b"; ""]; currentIndex := 2 |} =
    ["a"; "b"; ""].
Proof.
  split; [reflexivity |].
  exact (proj1 (X14_cells_show_the_store Z id (λ z, (z / 2)%Z)
                  (mkProps 3 None None) (noStyleProps Z)
                  {| codeArr := ["a"; "b"; ""]; currentIndex := 2 |} eq_refl)).
Defined.

Lemma X15_active_cell_is_first_empty_witness :
  (partition (codeLength (mkProps 3 None None))
     {| codeArr := ["a"; "b"; ""]; currentIndex := 2 |}
   ∨ completed (codeLength (mkProps 3 None None))
       {| codeArr := ["a"; "b"; ""]; currentIndex := 2 |})
  ∧ (∃ v, renderContent Z id (λ z, (z / 2)%Z) (mkProps 3 None None)
            (noStyleProps Z)
            {| codeArr := ["a"; "b"; ""]; currentIndex := 2 |} !! 2 = Some v
          ∧ (view_active v = true ↔
             findIndex
               (view_value <$>
                  renderContent Z id (λ z, (z / 2)%Z) (mkProps 3 None None)
                    (noStyleProps Z)
                    {| codeArr := ["a"; "b"; ""]; currentIndex := 2 |}) =
             Some 2)
          ∧ (view_autoFocus v = true ↔
             autoFocus Z (noStyleProps Z) = true ∧ 2 = 0)).
Proof.
  split; [left; exact partition_example_ab |].
  eexists. split; [reflexivity |].
  exact (X15_active_cell_is_first_empty Z id (λ z, (z / 2)%Z)
           (mkProps 3 None None) (noStyleProps Z)
           {| codeArr := ["a"; "b"; ""]; currentIndex := 2 |} 2 _
           (or_introl partition_example_ab) eq_refl).
Defined.
